(** * The log-query tools of the AI DevOps assistant

    A shallow embedding of [backend/src/tools/logTool.ts] (the BigQuery tool,
    [createQueryLogsTool]) and [backend/src/tools/mockLogTool.ts] (the mock
    tool, [createQueryMockLogsTool]), together with the tool selection of
    [backend/src/index.ts].

    Conventions of the embedding.
    - A JavaScript string is a Rocq [string] whose characters are the code
      units 0..255 (the Latin-1 range).  [toLowerCase], [trim] and the
      regular-expression classes [\s] and [\d] are given on that range.
    - A JavaScript number holding an integer is a [Z] or an [N].  A parsed
      [LIMIT] is only ever compared with 100 or used to truncate the ten mock
      entries, and both agree with the floating-point value JavaScript
      computes for a long run of digits.
    - A completion of a block is [Normal v] or [Throw e]; [try ... catch] is
      [try_catch].  Writes to the console are not part of the model.
    - A millisecond time value is a [Z].  The mock entries keep their time
      value; the source keeps its ISO-8601 rendering and reads it back with
      [new Date(...).getTime()], which gives the same millisecond value. *)

From Stdlib Require Import String Ascii List ZArith NArith Bool Lia.
From Stdlib Require Import Sorted Permutation.
From Stdlib Require Import DecimalString DecimalFacts DecimalN.
Import ListNotations.
Open Scope string_scope.

(** ** JavaScript strings *)

Module JS.

Definition code (c : ascii) : N := N_of_ascii c.

(** [WhiteSpace] and [LineTerminator] below U+0100: TAB, LF, VT, FF, CR,
    SPACE and NO-BREAK SPACE.  This is both what [trim] strips and what [\s]
    matches. *)
Definition isWhiteSpace (c : ascii) : bool :=
  let n := code c in
  (((9 <=? n) && (n <=? 13)) || (n =? 32) || (n =? 160))%N.

(** [\d] *)
Definition isDigit (c : ascii) : bool :=
  let n := code c in ((48 <=? n) && (n <=? 57))%N.

(** The lower-case mapping below U+0100: A-Z and the accented capitals
    U+00C0..U+00DE, the multiplication sign U+00D7 apart. *)
Definition lowerChar (c : ascii) : ascii :=
  let n := code c in
  if (((65 <=? n) && (n <=? 90))
      || ((192 <=? n) && (n <=? 222) && negb (n =? 215)))%N
  then ascii_of_N (n + 32) else c.

(** [s.toLowerCase()] *)
Fixpoint toLowerCase (s : string) : string :=
  match s with
  | EmptyString => EmptyString
  | String c t => String (lowerChar c) (toLowerCase t)
  end.

(** [s.includes(search)] *)
Fixpoint includes (s search : string) : bool :=
  prefix search s
  || match s with
     | EmptyString => false
     | String _ t => includes t search
     end.

(** [s.trimStart()] *)
Fixpoint trimStart (s : string) : string :=
  match s with
  | EmptyString => EmptyString
  | String c t => if isWhiteSpace c then trimStart t else s
  end.

(** [s.trimEnd()] *)
Fixpoint trimEnd (s : string) : string :=
  match s with
  | EmptyString => EmptyString
  | String c t =>
      match trimEnd t with
      | EmptyString => if isWhiteSpace c then EmptyString else String c EmptyString
      | t' => String c t'
      end
  end.

(** [s.trim()] *)
Definition trim (s : string) : string := trimEnd (trimStart s).

(** [s.endsWith(suffix)] *)
Fixpoint endsWith (s suffix : string) : bool :=
  (s =? suffix)
  || match s with
     | EmptyString => false
     | String _ t => endsWith t suffix
     end.

(** [s.slice(0, -k)] *)
Definition sliceEnd (s : string) (k : nat) : string :=
  substring 0 (String.length s - k) s.

(** The longest prefix of [s] whose characters satisfy [p], and the rest. *)
Fixpoint span (p : ascii -> bool) (s : string) : string * string :=
  match s with
  | EmptyString => (EmptyString, EmptyString)
  | String c t =>
      if p c then let (a, b) := span p t in (String c a, b)
      else (EmptyString, s)
  end.

(** [parseInt(digits, 10)] on a run of decimal digits. *)
Fixpoint parseDigits (acc : N) (s : string) : N :=
  match s with
  | EmptyString => acc
  | String c t => parseDigits (10 * acc + (code c - 48))%N t
  end.

Definition parseInt (s : string) : N := parseDigits 0 s.

(** A successful match of [/limit\s+(\d+)/]: the text before it, the matched
    text, the first group and the text after it. *)
Record LimitMatch : Type := mkLimitMatch {
  before : string;
  whole : string;
  group1 : string;
  after : string
}.

(** [/limit\s+(\d+)/] tried at the start of [s].  With the [i] flag the word
    is compared after case folding; below U+0100 that accepts exactly the
    letters of "limit" in either case.  [\s+] and [\d+] are greedy, and since
    no character is both a space and a digit, giving back a space never turns
    a failed match into a successful one. *)
Definition limitAt (ignoreCase : bool) (s : string) : option LimitMatch :=
  match s with
  | String c1 (String c2 (String c3 (String c4 (String c5 rest)))) =>
      let word := String c1 (String c2 (String c3 (String c4 (String c5 "")))) in
      if (if ignoreCase then toLowerCase word else word) =? "limit" then
        let (spaces, rest1) := span isWhiteSpace rest in
        let (digits, rest2) := span isDigit rest1 in
        match spaces, digits with
        | EmptyString, _ => None
        | _, EmptyString => None
        | _, _ => Some (mkLimitMatch "" (word ++ spaces ++ digits) digits rest2)
        end
      else None
  | _ => None
  end.

(** [s.match(/limit\s+(\d+)/)]: the leftmost match. *)
Fixpoint matchLimit (ignoreCase : bool) (s : string) : option LimitMatch :=
  match limitAt ignoreCase s with
  | Some m => Some m
  | None =>
      match s with
      | EmptyString => None
      | String c t =>
          match matchLimit ignoreCase t with
          | Some m =>
              Some (mkLimitMatch (String c (before m)) (whole m) (group1 m) (after m))
          | None => None
          end
      end
  end.

(** [s.replace(/limit\s+\d+/i, replacement)], for a replacement without
    [$] patterns: the leftmost match is replaced, the rest is kept. *)
Definition replaceLimit (s replacement : string) : string :=
  match matchLimit true s with
  | Some m => before m ++ replacement ++ after m
  | None => s
  end.

End JS.

(** ** The safety checks of the BigQuery tool (logTool.ts, lines 39-57) *)

Module Sanitizer.
Import JS.

(** "Safety check: Ensure query has a LIMIT clause" *)
Definition ensureLimit (query : string) : string :=
  if negb (includes (toLowerCase query) "limit") then
    let query := trim query in
    let query := if endsWith query ";" then sliceEnd query 1 else query in
    query ++ " LIMIT 50"
  else query.

(** "Safety check: Prevent queries with LIMIT > 100" *)
Definition capLimit (query : string) : string :=
  match matchLimit true query with
  | Some limitMatch =>
      let limit := parseInt (group1 limitMatch) in
      if (100 <? limit)%N then replaceLimit query "LIMIT 50" else query
  | None => query
  end.

Definition sanitize (query : string) : string := capLimit (ensureLimit query).

End Sanitizer.

(** ** JSON values and [JSON.stringify] *)

Module Json.
Import JS.

Unset Elimination Schemes.

Inductive json : Type :=
| JNull
| JBool (b : bool)
| JNumber (z : Z)
| JString (s : string)
| JArray (items : list json)
| JObject (fields : list (string * json)).

Set Elimination Schemes.

(** Induction on a JSON value, with the hypothesis for every item of an
    array and every property of an object. *)
Section Induction.

Variable P : json -> Prop.
Hypothesis Hnull : P JNull.
Hypothesis Hbool : forall b, P (JBool b).
Hypothesis Hnumber : forall z, P (JNumber z).
Hypothesis Hstring : forall s, P (JString s).
Hypothesis Harray : forall items, Forall P items -> P (JArray items).
Hypothesis Hobject :
  forall fields, Forall (fun kv => P (snd kv)) fields -> P (JObject fields).

Fixpoint json_ind (j : json) : P j :=
  match j with
  | JNull => Hnull
  | JBool b => Hbool b
  | JNumber z => Hnumber z
  | JString s => Hstring s
  | JArray items =>
      Harray items
        ((fix all (l : list json) : Forall P l :=
            match l with
            | [] => Forall_nil P
            | x :: rest => Forall_cons x (json_ind x) (all rest)
            end) items)
  | JObject fields =>
      Hobject fields
        ((fix all (l : list (string * json)) : Forall (fun kv => P (snd kv)) l :=
            match l with
            | [] => Forall_nil _
            | kv :: rest =>
                @Forall_cons _ (fun kv => P (snd kv)) kv rest
                  (json_ind (snd kv)) (all rest)
            end) fields)
  end.

End Induction.

Definition dquote : ascii := "034"%char.
Definition newline : string := String "010"%char EmptyString.

Definition hexDigit (n : N) : ascii :=
  ascii_of_N (if (n <? 10)%N then 48 + n else 87 + n).

(** One code unit of [QuoteJSONString]. *)
Definition quoteChar (c : ascii) : string :=
  let n := code c in
  if (n =? 8)%N then "\b"
  else if (n =? 9)%N then "\t"
  else if (n =? 10)%N then "\n"
  else if (n =? 12)%N then "\f"
  else if (n =? 13)%N then "\r"
  else if (n =? 34)%N then String "\" (String dquote EmptyString)
  else if (n =? 92)%N then "\\"
  else if (n <? 32)%N then
    "\u00" ++ String (hexDigit (n / 16)) (String (hexDigit (n mod 16)) EmptyString)
  else String c EmptyString.

Fixpoint quoteBody (s : string) : string :=
  match s with
  | EmptyString => EmptyString
  | String c t => quoteChar c ++ quoteBody t
  end.

(** [QuoteJSONString] *)
Definition quote (s : string) : string :=
  String dquote (quoteBody s ++ String dquote EmptyString).

(** [Number::toString] of an integer (below 10^21 in magnitude, where
    JavaScript writes all the digits). *)
Definition numberToString (z : Z) : string :=
  let digits := NilEmpty.string_of_uint (N.to_uint (Z.abs_N z)) in
  if (z <? 0)%Z then "-" ++ digits else digits.

(** [SerializeJSONProperty] with its [SerializeJSONArray] and
    [SerializeJSONObject]: [gap] is the indentation unit ("" for the compact
    form), [indent] the current indentation. *)
Fixpoint serialize (gap indent : string) (j : json) {struct j} : string :=
  match j with
  | JNull => "null"
  | JBool b => if b then "true" else "false"
  | JNumber z => numberToString z
  | JString s => quote s
  | JArray items =>
      let stepback := indent in
      let indent := indent ++ gap in
      match map (serialize gap indent) items with
      | [] => "[]"
      | partial =>
          if gap =? "" then "[" ++ String.concat "," partial ++ "]"
          else
            let separator := "," ++ newline ++ indent in
            "[" ++ newline ++ indent ++ String.concat separator partial
                ++ newline ++ stepback ++ "]"
      end
  | JObject fields =>
      let stepback := indent in
      let indent := indent ++ gap in
      let member (kv : string * json) :=
        let (k, v) := kv in
        quote k ++ (if gap =? "" then ":" else ": ") ++ serialize gap indent v in
      match map member fields with
      | [] => "{}"
      | partial =>
          if gap =? "" then "{" ++ String.concat "," partial ++ "}"
          else
            let separator := "," ++ newline ++ indent in
            "{" ++ newline ++ indent ++ String.concat separator partial
                ++ newline ++ stepback ++ "}"
      end
  end.

(** [JSON.stringify(value)] *)
Definition stringify (j : json) : string := serialize "" "" j.

(** [JSON.stringify(value, null, 2)] *)
Definition stringify2 (j : json) : string := serialize "  " "" j.

(** [value[key]] of an object. *)
Fixpoint assoc (key : string) (fields : list (string * json)) : option json :=
  match fields with
  | [] => None
  | (k, v) :: rest => if k =? key then Some v else assoc key rest
  end.

Definition field (key : string) (j : json) : option json :=
  match j with
  | JObject fields => assoc key fields
  | _ => None
  end.

(** *** The JSON grammar (ECMA-404), what [JSON.parse] accepts *)

Definition isJsonSpace (c : ascii) : bool :=
  let n := code c in ((n =? 32) || (n =? 9) || (n =? 10) || (n =? 13))%N.

Fixpoint allChars (p : ascii -> bool) (s : string) : bool :=
  match s with
  | EmptyString => true
  | String c t => p c && allChars p t
  end.

Definition isHex (c : ascii) : bool :=
  let n := code c in
  (((48 <=? n) && (n <=? 57)) || ((65 <=? n) && (n <=? 70))
   || ((97 <=? n) && (n <=? 102)))%N.

(** The characters between the quotes of a JSON string. *)
Fixpoint isJsonChars (s : string) : bool :=
  match s with
  | EmptyString => true
  | String c t =>
      let n := code c in
      if (n =? 92)%N then
        match t with
        | String e t' =>
            let m := code e in
            if ((m =? 34) || (m =? 92) || (m =? 47) || (m =? 98) || (m =? 102)
                || (m =? 110) || (m =? 114) || (m =? 116))%N
            then isJsonChars t'
            else if (m =? 117)%N then
              match t' with
              | String h1 (String h2 (String h3 (String h4 t''))) =>
                  isHex h1 && isHex h2 && isHex h3 && isHex h4 && isJsonChars t''
              | _ => false
              end
            else false
        | EmptyString => false
        end
      else if (n =? 34)%N then false
      else if (n <? 32)%N then false
      else isJsonChars t
  end.

Definition nonEmpty (s : string) : bool :=
  match s with EmptyString => false | _ => true end.

(** integer part: "0", or a non-zero digit followed by digits *)
Definition numberInt (s : string) : option string :=
  match s with
  | String c t =>
      if (code c =? 48)%N then Some t
      else if isDigit c then Some (snd (span isDigit t))
      else None
  | EmptyString => None
  end.

(** optional fraction *)
Definition numberFrac (s : string) : option string :=
  match s with
  | String c t =>
      if (code c =? 46)%N then
        let (d, r) := span isDigit t in if nonEmpty d then Some r else None
      else Some s
  | EmptyString => Some s
  end.

(** optional exponent *)
Definition numberExp (s : string) : option string :=
  match s with
  | String c t =>
      if ((code c =? 101) || (code c =? 69))%N then
        let t1 := match t with
                  | String g t' =>
                      if ((code g =? 43) || (code g =? 45))%N then t' else t
                  | EmptyString => t
                  end in
        let (d, r) := span isDigit t1 in if nonEmpty d then Some r else None
      else Some s
  | EmptyString => Some s
  end.

Definition isJsonNumber (s : string) : bool :=
  let s1 := match s with
            | String c t => if (code c =? 45)%N then t else s
            | EmptyString => s
            end in
  match numberInt s1 with
  | Some r1 =>
      match numberFrac r1 with
      | Some r2 =>
          match numberExp r2 with
          | Some EmptyString => true
          | _ => false
          end
      | None => false
      end
  | None => false
  end.

Inductive JsonValue : string -> Prop :=
| JV_null : JsonValue "null"
| JV_true : JsonValue "true"
| JV_false : JsonValue "false"
| JV_number s : isJsonNumber s = true -> JsonValue s
| JV_string s :
    isJsonChars s = true -> JsonValue (String dquote (s ++ String dquote ""))
| JV_array_empty w : allChars isJsonSpace w = true -> JsonValue ("[" ++ w ++ "]")
| JV_array es : JsonElements es -> JsonValue ("[" ++ es ++ "]")
| JV_object_empty w : allChars isJsonSpace w = true -> JsonValue ("{" ++ w ++ "}")
| JV_object ms : JsonMembers ms -> JsonValue ("{" ++ ms ++ "}")
with JsonElement : string -> Prop :=
| JE_element w1 v w2 :
    allChars isJsonSpace w1 = true -> JsonValue v ->
    allChars isJsonSpace w2 = true -> JsonElement (w1 ++ v ++ w2)
with JsonElements : string -> Prop :=
| JE_last e : JsonElement e -> JsonElements e
| JE_more e es : JsonElement e -> JsonElements es -> JsonElements (e ++ "," ++ es)
with JsonMember : string -> Prop :=
| JM_member w1 k w2 e :
    allChars isJsonSpace w1 = true -> isJsonChars k = true ->
    allChars isJsonSpace w2 = true -> JsonElement e ->
    JsonMember (w1 ++ String dquote (k ++ String dquote "") ++ w2 ++ ":" ++ e)
with JsonMembers : string -> Prop :=
| JM_last m : JsonMember m -> JsonMembers m
| JM_more m ms : JsonMember m -> JsonMembers ms -> JsonMembers (m ++ "," ++ ms).

(** A string parses as one JSON document. *)
Definition JsonText (s : string) : Prop := JsonElement s.

End Json.

(** ** Completions: a block returns or throws *)

Module Completion.

(** What a [catch (error)] clause receives: an [Error] object with its
    message, or a value that is not an [Error]. *)
Inductive thrown : Type :=
| ErrorObject (message : string)
| OtherValue.

Inductive completion (A : Type) : Type :=
| Normal (value : A)
| Throw (error : thrown).

Arguments Normal {A} value.
Arguments Throw {A} error.

Definition bind {A B : Type} (c : completion A) (k : A -> completion B)
  : completion B :=
  match c with
  | Normal v => k v
  | Throw e => Throw e
  end.

(** [try { body } catch (error) { handler }] *)
Definition try_catch {A : Type} (body : completion A)
  (handler : thrown -> completion A) : completion A :=
  match body with
  | Normal v => Normal v
  | Throw e => handler e
  end.

(** [error instanceof Error ? error.message : 'Unknown error'] *)
Definition errorMessageOf (error : thrown) : string :=
  match error with
  | ErrorObject message => message
  | OtherValue => "Unknown error"
  end.

End Completion.

Notation "x <- c ;; k" := (Completion.bind c (fun x => k))
  (at level 61, c at next level, right associativity).

(** ** logTool.ts: the BigQuery tool *)

Module LogTool.
Import JS Sanitizer Json Completion.

Section Tool.

(** The BigQuery client: [bigquery.createQueryJob(options)] with
    [options = { query, location: 'US' }], and [job.getQueryResults()].  Each
    resolves or rejects; [await] turns a rejection into a throw.  A row is
    the JSON value [JSON.stringify] reads from it. *)
Variable Job : Type.
Variable createQueryJob : string -> completion Job.
Variable getQueryResults : Job -> completion (list json).

(** The [try] block (lines 38-86). *)
Definition tryBlock (query : string) : completion string :=
  let query := ensureLimit query in
  let query := capLimit query in
  job <- createQueryJob query ;;
  rows <- getQueryResults job ;;
  if (List.length rows =? 0)%nat then
    Normal (stringify (JObject
      [("message", JString "No logs found matching the query criteria.");
       ("rowCount", JNumber 0);
       ("data", JArray [])]))
  else
    Normal (stringify2 (JObject
      [("rowCount", JNumber (Z.of_nat (List.length rows)));
       ("data", JArray rows)])).

(** The [catch] block (lines 87-112).  The arrows of the first hint (U+2192)
    stand in their UTF-8 bytes. *)
Definition catchBlock (error : thrown) : completion string :=
  let errorMessage := errorMessageOf error in
  if includes errorMessage "Not found: Table" then
    Normal (stringify (JObject
      [("error", JString "Log Analytics table not found. Please ensure Log Analytics is enabled and has data.");
       ("hint", JString "Go to Cloud Console → Logging → Log Storage → Upgrade _Default bucket to Log Analytics");
       ("details", JString errorMessage)]))
  else if includes errorMessage "permission" then
    Normal (stringify (JObject
      [("error", JString "Permission denied. The service account needs BigQuery permissions.");
       ("hint", JString "Grant roles/bigquery.jobUser and roles/logging.viewer to the service account");
       ("details", JString errorMessage)]))
  else
    Normal (stringify (JObject
      [("error", JString "Error querying logs");
       ("details", JString errorMessage)])).

(** [createQueryLogsTool(ai)]: the tool 'querySystemLogs', that is the
    function given to [ai.defineTool], applied to [{ query }]. *)
Definition createQueryLogsTool (query : string) : completion string :=
  try_catch (tryBlock query) catchBlock.

End Tool.

End LogTool.

(** ** mockLogTool.ts: the mock tool *)

Module MockLogTool.
Import JS Json Completion.

Record LogEntry : Type := mkLogEntry {
  timestamp : Z;
  severity : string;
  service : string;
  log_message : string;
  error_details : option string;
  trace_id : string;
  http_status : option Z
}.

(** [items.slice(0, end)] for a non-negative [end]. *)
Fixpoint slice0 {A : Type} (items : list A) (end_ : N) : list A :=
  match items with
  | [] => []
  | x :: rest => if (end_ =? 0)%N then [] else x :: slice0 rest (N.pred end_)
  end.

(** [items.sort(compareFn)]: the sort is stable, so for a consistent
    comparison its result is the one of this insertion sort. *)
Fixpoint insertBy {A : Type} (compareFn : A -> A -> Z) (x : A) (sorted : list A)
  : list A :=
  match sorted with
  | [] => [x]
  | y :: rest =>
      if (compareFn x y <=? 0)%Z then x :: sorted
      else y :: insertBy compareFn x rest
  end.

Fixpoint sort {A : Type} (compareFn : A -> A -> Z) (items : list A) : list A :=
  match items with
  | [] => []
  | x :: rest => insertBy compareFn x (sort compareFn rest)
  end.

Section Tool.

(** [new Date(t).toISOString()], the rendering of a time value. *)
Variable toISOString : Z -> string.

(** [loadTime k] is what the k-th [Date.now()] of the module's
    initialisation returned (one call per entry of [mockLogs]). *)
Variable loadTime : nat -> Z.

Definition mockLogs : list LogEntry :=
  [ mkLogEntry (loadTime 0 - 5 * 60000) "ERROR" "payment-service"
      "Payment gateway timeout after 30s"
      (Some "Connection timeout to payment-gateway.example.com")
      "trace-abc123" (Some 504);
    mkLogEntry (loadTime 1 - 10 * 60000) "ERROR" "checkout-service"
      "Failed to process checkout request"
      (Some "Database connection pool exhausted")
      "trace-def456" (Some 500);
    mkLogEntry (loadTime 2 - 15 * 60000) "WARNING" "auth-service"
      "High latency detected on authentication endpoint"
      (Some "Response time: 2500ms (threshold: 1000ms)")
      "trace-ghi789" (Some 200);
    mkLogEntry (loadTime 3 - 20 * 60000) "ERROR" "payment-service"
      "Payment declined by processor"
      (Some "Insufficient funds")
      "trace-jkl012" (Some 402);
    mkLogEntry (loadTime 4 - 25 * 60000) "ERROR" "checkout-service"
      "Checkout validation failed"
      (Some "Invalid shipping address format")
      "trace-mno345" (Some 400);
    mkLogEntry (loadTime 5 - 30 * 60000) "ERROR" "api-gateway"
      "Rate limit exceeded"
      (Some "Client exceeded 100 requests per minute")
      "trace-pqr678" (Some 429);
    mkLogEntry (loadTime 6 - 35 * 60000) "WARNING" "database-proxy"
      "Slow query detected"
      (Some "Query execution time: 5.2s")
      "trace-stu901" None;
    mkLogEntry (loadTime 7 - 40 * 60000) "ERROR" "payment-service"
      "Payment gateway connection refused"
      (Some "ECONNREFUSED 10.0.1.5:8443")
      "trace-vwx234" (Some 503);
    mkLogEntry (loadTime 8 - 45 * 60000) "INFO" "checkout-service"
      "Checkout completed successfully"
      None
      "trace-yza567" (Some 200);
    mkLogEntry (loadTime 9 - 50 * 60000) "ERROR" "auth-service"
      "JWT token validation failed"
      (Some "Token expired at 2025-11-28T10:30:00Z")
      "trace-bcd890" (Some 401) ]%Z.

Definition optionToJson {A : Type} (f : A -> json) (o : option A) : json :=
  match o with
  | Some a => f a
  | None => JNull
  end.

(** An entry as [JSON.stringify] sees it, its properties in the order of the
    object literal. *)
Definition entryToJson (log : LogEntry) : json :=
  JObject
    [("timestamp", JString (toISOString (timestamp log)));
     ("severity", JString (severity log));
     ("service", JString (service log));
     ("log_message", JString (log_message log));
     ("error_details", optionToJson JString (error_details log));
     ("trace_id", JString (trace_id log));
     ("http_status", optionToJson JNumber (http_status log))].

(** Lines 238-283: [filteredLogs] when the [try] block reaches its [return].
    [now] is what [Date.now()] returns while the tool runs. *)
Definition filterLogs (now : Z) (query : string) : list LogEntry :=
  let filteredLogs := mockLogs in
  let queryLower := toLowerCase query in
  (* Filter by severity *)
  let filteredLogs :=
    if includes queryLower "severity = 'error'" || includes queryLower "error" then
      filter (fun log => severity log =? "ERROR") filteredLogs
    else if includes queryLower "severity = 'warning'"
            || includes queryLower "warning" then
      filter (fun log => severity log =? "WARNING") filteredLogs
    else filteredLogs in
  (* Filter by service *)
  let filteredLogs :=
    if includes queryLower "payment" then
      filter (fun log => includes (service log) "payment") filteredLogs
    else if includes queryLower "checkout" then
      filter (fun log => includes (service log) "checkout") filteredLogs
    else if includes queryLower "auth" then
      filter (fun log => includes (service log) "auth") filteredLogs
    else filteredLogs in
  (* Filter by time *)
  let filteredLogs :=
    if includes queryLower "30 minute" then
      let thirtyMinAgo := (now - 30 * 60000)%Z in
      filter (fun log => (thirtyMinAgo <? timestamp log)%Z) filteredLogs
    else if includes queryLower "1 hour" then
      let oneHourAgo := (now - 60 * 60000)%Z in
      filter (fun log => (oneHourAgo <? timestamp log)%Z) filteredLogs
    else filteredLogs in
  (* Apply LIMIT if specified *)
  let limit :=
    match matchLimit false queryLower with
    | Some limitMatch => parseInt (group1 limitMatch)
    | None => 50%N
    end in
  let filteredLogs := slice0 filteredLogs limit in
  (* Sort by timestamp descending *)
  sort (fun a b => (timestamp b - timestamp a)%Z) filteredLogs.

(** The [try] block (lines 236-287). *)
Definition tryBlock (now : Z) (query : string) : completion string :=
  Normal (stringify2 (JArray (map entryToJson (filterLogs now query)))).

(** The [catch] block (lines 288-292). *)
Definition catchBlock (error : thrown) : completion string :=
  let errorMessage := errorMessageOf error in
  Normal ("Error simulating log query: " ++ errorMessage).

(** [createQueryMockLogsTool(ai)]: the tool 'querySystemLogs' of the mock
    module, that is the function given to [ai.defineTool], applied to
    [{ query }] while the clock reads [now]. *)
Definition createQueryMockLogsTool (now : Z) (query : string)
  : completion string :=
  try_catch (tryBlock now query) catchBlock.

End Tool.

End MockLogTool.

(** ** index.ts: the tool the agent is given *)

Module Assistant.
Import Json Completion.

Section Tools.

Variable Job : Type.
Variable createQueryJob : string -> completion Job.
Variable getQueryResults : Job -> completion (list json).
Variable toISOString : Z -> string.
Variable loadTime : nat -> Z.

(** [const tool = config.useMockData ? queryMockLogsTool : queryLogsTool] *)
Definition tool (useMockData : bool) (now : Z) (query : string)
  : completion string :=
  if useMockData then
    MockLogTool.createQueryMockLogsTool toISOString loadTime now query
  else
    LogTool.createQueryLogsTool Job createQueryJob getQueryResults query.

End Tools.

End Assistant.

(** ** The vocabulary of the specification *)

Module Spec.
Import JS Sanitizer Json Completion.

(** *** Row-limiting clauses (Query Sanitizer) *)

(** The declared caps of the row-limiting clauses of a query text, from left
    to right: a clause is the word LIMIT in either case, white space and a
    decimal number, the shape [/limit\s+(\d+)/i] looks for. *)
Fixpoint limitClauses (s : string) : list N :=
  match limitAt true s with
  | Some m => [parseInt (group1 m)]
  | None => []
  end
  ++ match s with
     | EmptyString => []
     | String _ t => limitClauses t
     end.

(** The declared cap of the leftmost clause. *)
Definition declaredCap (s : string) : option N :=
  match matchLimit true s with
  | Some m => Some (parseInt (group1 m))
  | None => None
  end.

(** *** Envelopes *)

(** A ResultEnvelope: a row count, the rows (the property [data]) and a
    message when there are no rows. *)
Definition ResultEnvelope (j : json) : Prop :=
  exists rows : list json,
    field "rowCount" j = Some (JNumber (Z.of_nat (List.length rows)))
    /\ field "data" j = Some (JArray rows)
    /\ (rows = [] -> exists m, field "message" j = Some (JString m)).

Inductive ErrorKind : Type :=
| MissingTable
| PermissionDenied
| Generic.

(** The kind an error envelope announces in its property [error]. *)
Definition errorKind (j : json) : option ErrorKind :=
  match field "error" j with
  | Some (JString e) =>
      if e =? "Log Analytics table not found. Please ensure Log Analytics is enabled and has data."
      then Some MissingTable
      else if e =? "Permission denied. The service account needs BigQuery permissions."
      then Some PermissionDenied
      else if e =? "Error querying logs" then Some Generic
      else None
  | _ => None
  end.

(** The remediation hint of a kind, where one is known. *)
Definition hintOf (kind : ErrorKind) : option string :=
  match kind with
  | MissingTable =>
      Some "Go to Cloud Console → Logging → Log Storage → Upgrade _Default bucket to Log Analytics"
  | PermissionDenied =>
      Some "Grant roles/bigquery.jobUser and roles/logging.viewer to the service account"
  | Generic => None
  end.

(** An ErrorEnvelope: a short classification (the property [error]), the
    hint of that kind (the property [hint]) and a message (the property
    [details]). *)
Definition ErrorEnvelope (j : json) : Prop :=
  exists kind message,
    errorKind j = Some kind
    /\ field "hint" j = option_map JString (hintOf kind)
    /\ field "details" j = Some (JString message).


(** *** Recency order of rows *)

Definition rowTime (row : json) : option string :=
  match field "timestamp" row with
  | Some (JString t) => Some t
  | _ => None
  end.

(** Two rows are in recency order when the second is not later than the
    first; UTC ISO-8601 renderings of one length order as their instants. *)
Definition notLater (a b : json) : Prop :=
  match rowTime a, rowTime b with
  | Some ta, Some tb => String.ltb ta tb = false
  | _, _ => True
  end.

Definition RecencyOrdered (rows : list json) : Prop :=
  StronglySorted notLater rows.

(** *** The matching rules of the Synthetic Backend Adapter (spec 4.3) *)

Section Synthetic.
Import MockLogTool.

Variable loadTime : nat -> Z.

(** 1. ERROR if the text signals error severity, else WARNING if it signals
    warning severity, else none. *)
Definition severitySignal (text : string) : option string :=
  if includes text "error" then Some "ERROR"
  else if includes text "warning" then Some "WARNING"
  else None.

(** 2. The fixed, ordered list of service-name substrings; the first one
    found in the text is the origin filter. *)
Definition knownServices : list string := ["payment"; "checkout"; "auth"].

Definition originSignal (text : string) : option string :=
  find (fun name => includes text name) knownServices.

(** 3. The recency window in minutes. *)
Definition recencySignal (text : string) : option Z :=
  if includes text "30 minute" then Some 30%Z
  else if includes text "1 hour" then Some 60%Z
  else None.

(** 4. The row cap: the numeric limit of the text, 50 by default. *)
Definition rowCap (text : string) : N :=
  match matchLimit false text with
  | Some m => parseInt (group1 m)
  | None => 50%N
  end.

Definition retain {A : Type} (signal : option A) (keep : A -> LogEntry -> bool)
  (records : list LogEntry) : list LogEntry :=
  match signal with
  | Some a => filter (keep a) records
  | None => records
  end.

(** 5. Severity, then origin, then recency, then the truncation to the row
    cap; the sort comes after. *)
Definition selected (now : Z) (query : string) : list LogEntry :=
  let text := toLowerCase query in
  let bySeverity :=
    retain (severitySignal text) (fun s r => severity r =? s) (mockLogs loadTime) in
  let byOrigin :=
    retain (originSignal text) (fun name r => includes (service r) name) bySeverity in
  let byRecency :=
    retain (recencySignal text)
      (fun minutes r => (now - minutes * 60000 <? timestamp r)%Z) byOrigin in
  slice0 byRecency (rowCap text).

(** The same steps, the truncation said with the list library's own words:
    the first [rowCap] records of what the three filters leave. *)
Definition truncated (now : Z) (query : string) : list LogEntry :=
  let text := toLowerCase query in
  let bySeverity :=
    retain (severitySignal text) (fun s r => severity r =? s) (mockLogs loadTime) in
  let byOrigin :=
    retain (originSignal text) (fun name r => includes (service r) name) bySeverity in
  let byRecency :=
    retain (recencySignal text)
      (fun minutes r => (now - minutes * 60000 <? timestamp r)%Z) byOrigin in
  firstn (N.to_nat (rowCap text)) byRecency.

(** Timestamp descending. *)
Definition newerFirst (a b : LogEntry) : Prop := (timestamp b <= timestamp a)%Z.

(** The trace identifiers of the matched records. *)
Definition traceIds (records : list LogEntry) : list string :=
  map trace_id records.

End Synthetic.

End Spec.

(** ** Concrete runs *)

Module Scenario.
Import JS Sanitizer Json Completion.

(** A clock that reads 0 throughout the initialisation of the mock module,
    and a rendering of time values as decimal milliseconds. *)
Definition loadedAtZero (k : nat) : Z := 0%Z.
Definition millis (t : Z) : string := numberToString t.


(** A store whose job resolves with the given rows. *)
Definition storeOf (rows : list json) (job : unit) : completion (list json) :=
  Normal rows.

Definition accept (query : string) : completion unit := Normal tt.

Definition rowAt (t : string) : json := JObject [("timestamp", JString t)].

Definition nestedQuery : string :=
  "SELECT * FROM (SELECT * FROM logs LIMIT 10) LIMIT 5000".

Definition unlimitedQuery : string :=
  "SELECT * FROM logs WHERE plan = 'unlimited'".

Definition rateLimitQuery : string :=
  "SELECT rate_limit FROM logs".



End Scenario.

(** ** Auxiliary notions of the proofs *)

Module Notions.
Import JS Sanitizer Json.

(** A string is empty or starts with a character outside [p]. *)
Definition stopsAt (p : ascii -> bool) (t : string) : bool :=
  match t with
  | EmptyString => true
  | String c _ => negb (p c)
  end.

Definition withAfter (m : LimitMatch) (t : string) : LimitMatch :=
  mkLimitMatch (before m) (whole m) (group1 m) (after m ++ t).

Definition withBefore (b : string) (m : LimitMatch) : LimitMatch :=
  mkLimitMatch (b ++ before m) (whole m) (group1 m) (after m).

(** No character of [x] is the letter l. *)
Definition noL (x : string) : bool :=
  Json.allChars (fun c => negb (Ascii.eqb (lowerChar c) "l")) x.

(** The text the first check keeps: the query trimmed, one final semicolon
    dropped. *)
Definition kept (query : string) : string :=
  if endsWith (trim query) ";" then sliceEnd (trim query) 1 else trim query.

(** The characters a JSON value can start with. *)
Definition startsValue (c : ascii) : bool :=
  let n := code c in
  ((n =? 45) || isDigit c || (n =? 110) || (n =? 116) || (n =? 102)
   || (n =? 34) || (n =? 91) || (n =? 123))%N.

(** The text of a property: the quoted key, the colon with the white space
    [sp] after it, and a value. *)
Definition PropertyText (sp part : string) : Prop :=
  exists k v, part = quote k ++ (":" ++ sp) ++ v /\ JsonValue v.

End Notions.

(** ** config.ts *)

Module Config.
Import JS.

(** [process.env]: a variable is a string or undefined. *)
Definition Env : Type := string -> option string.

(** [value || fallback] for a value that is a string or undefined: the empty
    string is falsy too. *)
Definition orElse (value : option string) (fallback : string) : string :=
  match value with
  | None => fallback
  | Some EmptyString => fallback
  | Some s => s
  end.

(** [parseInt(text, 10)]: leading white space and one sign are skipped, the
    longest run of digits is read, and without a digit the result is NaN,
    here [None].  (The sign of a zero is not kept, and the value is the
    number the code computes as long as it is below 2^53, which fifteen digits
    are.) *)
Definition parseIntPrefix (text : string) : option Z :=
  let s := trimStart text in
  let (negative, s) :=
    match s with
    | String c t =>
        if (code c =? 45)%N then (true, t)
        else if (code c =? 43)%N then (false, t)
        else (false, s)
    | EmptyString => (false, s)
    end in
  match fst (span isDigit s) with
  | EmptyString => None
  | digits =>
      Some (if negative then (- Z.of_N (parseInt digits))%Z
            else Z.of_N (parseInt digits))
  end.

Record Config : Type := mkConfig {
  gcpProjectId : string;
  gcpRegion : string;
  useMockData : bool;
  port : option Z;
  nodeEnv : string
}.

(** The object literal [config], its data properties. *)
Definition config (env : Env) : Config :=
  {| gcpProjectId := orElse (env "GCP_PROJECT_ID") "";
     gcpRegion := orElse (env "GCP_REGION") "us-central1";
     useMockData :=
       match env "USE_MOCK_DATA" with
       | Some v => v =? "true"
       | None => false
       end;
     port := parseIntPrefix (orElse (env "PORT") "3400");
     nodeEnv := orElse (env "NODE_ENV") "development" |}.

(** [get bigQueryDataset()] *)
Definition bigQueryDataset (c : Config) : string :=
  gcpProjectId c ++ ".global._Default".

(** [get bigQueryTable()] *)
Definition bigQueryTable (c : Config) : string :=
  bigQueryDataset c ++ "._AllLogs".

(** [isValid()] *)
Definition isValid (c : Config) : bool :=
  if useMockData c then true
  else if gcpProjectId c =? "" then false
  else true.

End Config.

(** ** index.ts: the flow and the HTTP endpoint *)

Module Server.
Import JS Json Completion.

(** What [res.status(code).json(value)] sends; [res.json(value)] sends it
    with the status 200. *)
Record Response : Type := mkResponse {
  status : nat;
  body : json
}.

(** [!!value] for a JSON value or undefined. *)
Definition truthy (value : option json) : bool :=
  match value with
  | None => false
  | Some JNull => false
  | Some (JBool b) => b
  | Some (JNumber z) => negb (z =? 0)%Z
  | Some (JString s) => negb (s =? "")
  | Some (JArray _) => true
  | Some (JObject _) => true
  end.

(** [typeof value === 'string'] *)
Definition isString (value : option json) : bool :=
  match value with
  | Some (JString _) => true
  | _ => false
  end.

(** [const { data } = value]: destructuring undefined or null throws a
    TypeError, whose message is the engine's; any other value gives its
    property, undefined when it has none.  An object, as [JSON.parse] builds
    it, has each key once. *)
Definition destructure (typeErrorMessage : string) (value : option json)
  (key : string) : completion (option json) :=
  match value with
  | None => Throw (ErrorObject typeErrorMessage)
  | Some JNull => Throw (ErrorObject typeErrorMessage)
  | Some j => Normal (field key j)
  end.

(** The text the flow returns when the model call fails. *)
Definition apology (errorMessage : string) : string :=
  "I encountered an error while processing your request: " ++ errorMessage
  ++ newline ++ newline
  ++ "Please check the logs and try again. If this persists, contact support.".

Definition invalidRequest : json :=
  JObject
    [("error",
      JString ("Invalid request. Expected { data: "
               ++ String dquote ("your question" ++ String dquote " }")))].

Section Backend.

(** The tool of the running configuration, as a function of the clock
    reading and the query. *)
Variable tool : Z -> string -> completion string.

(** [ai.generate({ model, prompt, system, tools: [tool], config })] and the
    [text] of its response: the model may call the tool as it likes, and the
    call resolves or rejects. *)
Variable generate :
  (Z -> string -> completion string) -> string -> completion string.

(** The message of the TypeError of a failed destructuring. *)
Variable typeErrorMessage : string.

(** [devAssistantFlow] (lines 116-154). *)
Definition devAssistantFlow (userPrompt : string) : completion string :=
  try_catch
    (responseText <- generate tool userPrompt ;;
     Normal responseText)
    (fun error =>
       let errorMessage := errorMessageOf error in
       Normal (apology errorMessage)).

(** [app.post('/devAssistant', ...)] (lines 171-194), from [req.body] to the
    response sent. *)
Definition postDevAssistant (reqBody : option json) : completion Response :=
  try_catch
    (data <- destructure typeErrorMessage reqBody "data" ;;
     if negb (truthy data) || negb (isString data) then
       Normal (mkResponse 400 invalidRequest)
     else
       match data with
       | Some (JString question) =>
           response <- devAssistantFlow question ;;
           Normal (mkResponse 200 (JObject [("result", JString response)]))
       | _ => Normal (mkResponse 400 invalidRequest)
       end)
    (fun error =>
       let errorMessage := errorMessageOf error in
       Normal (mkResponse 500
         (JObject [("error", JString "Internal server error");
                   ("details", JString errorMessage)]))).

(** [app.get('/health', ...)] (lines 162-168); [timestamp] is
    [new Date().toISOString()]. *)
Definition getHealth (useMockData : bool) (timestamp : string) : Response :=
  mkResponse 200
    (JObject [("status", JString "healthy");
              ("mode", JString (if useMockData then "mock" else "production"));
              ("timestamp", JString timestamp)]).

End Backend.

End Server.

(** ** DevAssistantChat.tsx: sending a message *)

Module Chat.
Import JS Json Completion.

Inductive Role : Type :=
| user
| assistant.

(** A message of the transcript.  [content] is the value the code puts
    there: a string, or whatever [data.result] holds. *)
Record Message : Type := mkMessage {
  role : Role;
  content : json;
  timestamp : Z
}.

(** The state of the component: [input], [messages], [isLoading], [error]. *)
Record State : Type := mkState {
  input : string;
  messages : list Message;
  isLoading : bool;
  error : option string
}.

(** What [await fetch(...)] gives: the promise rejects, or it resolves with
    a response, of which the code reads [ok], [status], [statusText] and
    [await response.json()]. *)
Inductive Fetched : Type :=
| Rejected (reason : thrown)
| Resolved (ok : bool) (status : Z) (statusText : string)
    (parsed : completion json).

(** [value || fallback] for a JSON value or undefined. *)
Definition orValue (value : option json) (fallback : json) : json :=
  match value with
  | Some v => if Server.truthy value then v else fallback
  | None => fallback
  end.

Section SendMessage.

(** [API_URL] *)
Variable API_URL : string.

(** [fetch(`${API_URL}/devAssistant`, { method: 'POST', ..., body })], for
    the value whose [JSON.stringify] is the body. *)
Variable fetch : json -> Fetched.

(** The message of the TypeError of reading a property of null. *)
Variable typeErrorMessage : string.

(** The [try] block (lines 59-82): the assistant's message. *)
Definition tryBlock (textToSend : string) (replyTime : Z)
  : completion Message :=
  match fetch (JObject [("data", JString textToSend)]) with
  | Rejected reason => Throw reason
  | Resolved ok status statusText parsed =>
      if negb ok then
        Throw (ErrorObject
                 ("HTTP " ++ numberToString status ++ ": " ++ statusText))
      else
        data <- parsed ;;
        match data with
        | JNull => Throw (ErrorObject typeErrorMessage)
        | _ =>
            Normal (mkMessage assistant
                      (orValue (field "result" data)
                               (JString "No response received"))
                      replyTime)
        end
  end.

(** The content of the message the [catch] block shows (line 91); its first
    character, U+274C, stands in its UTF-8 bytes. *)
Definition connectionError (errorMessage : string) : string :=
  "❌ Error connecting to assistant: " ++ errorMessage
  ++ newline ++ newline ++ "Please check:"
  ++ newline ++ "- Backend is running at " ++ API_URL
  ++ newline ++ "- CORS is enabled"
  ++ newline ++ "- Network connection is stable".

(** [sendMessage(messageText?)] (lines 43-99), run to its end from the state
    [s]: the state it leaves.  [sentTime] and [replyTime] are what the two
    [new Date()] give. *)
Definition sendMessage (messageText : option string) (sentTime replyTime : Z)
  (s : State) : State :=
  let textToSend := Config.orElse messageText (input s) in
  if trim textToSend =? "" then s
  else
    let userMessage := mkMessage user (JString textToSend) sentTime in
    let messages1 := (messages s ++ [userMessage])%list in
    match tryBlock textToSend replyTime with
    | Normal assistantMessage =>
        mkState "" (messages1 ++ [assistantMessage])%list false None
    | Throw err =>
        let errorMessage := errorMessageOf err in
        let errorMsg :=
          mkMessage assistant (JString (connectionError errorMessage))
            replyTime in
        mkState "" (messages1 ++ [errorMsg])%list false (Some errorMessage)
    end.

(** The request that [sendMessage] makes, if it makes one. *)
Definition requestOf (messageText : option string) (s : State) : option json :=
  let textToSend := Config.orElse messageText (input s) in
  if trim textToSend =? "" then None
  else Some (JObject [("data", JString textToSend)]).

End SendMessage.

(** The first message of the transcript (lines 26-32); [shown] is when the
    component was created. *)
Definition greeting (text : string) (shown : Z) : Message :=
  mkMessage assistant (JString text) shown.

(** The roles of a transcript alternate, the assistant having the first and
    the last word. *)
Fixpoint Alternates (ms : list Message) : Prop :=
  match ms with
  | [] => False
  | [m] => role m = assistant
  | m :: m' :: rest => role m = assistant /\ role m' = user /\ Alternates rest
  end.

(** One use of the component: a text is put into the input (typed, or a
    sample query), then Send or Enter calls [sendMessage()], and the fetch
    of that call ends as [fetched].  The input and the button are disabled
    while [isLoading], so a send ends before the next one starts. *)
Record Turn : Type := mkTurn {
  typed : string;
  fetched : Fetched;
  sentAt : Z;
  repliedAt : Z
}.

Definition turn (API_URL typeErrorMessage : string) (t : Turn) (s : State)
  : State :=
  sendMessage API_URL (fun _ => fetched t) typeErrorMessage None
    (sentAt t) (repliedAt t)
    (mkState (typed t) (messages s) (isLoading s) (error s)).

Fixpoint run (API_URL typeErrorMessage : string) (turns : list Turn)
  (s : State) : State :=
  match turns with
  | [] => s
  | t :: rest => run API_URL typeErrorMessage rest (turn API_URL typeErrorMessage t s)
  end.

(** The HTTP exchange between the component and the endpoint of index.ts:
    the endpoint receives the value of the request body and [fetch] resolves
    with what the endpoint sent; [ok] is a status from 200 to 299. *)
Definition overHttp (statusText : nat -> string)
  (endpoint : option json -> completion Server.Response) (request : json)
  : Fetched :=
  match endpoint (Some request) with
  | Normal response =>
      Resolved ((200 <=? Server.status response)%nat
                && (Server.status response <=? 299)%nat)
        (Z.of_nat (Server.status response))
        (statusText (Server.status response))
        (Normal (Server.body response))
  | Throw reason => Rejected reason
  end.

End Chat.

(** ** Further notions of the proofs *)

Module MoreNotions.
Import JS Json.

(** How a serialized error object of the BigQuery tool starts. *)
Definition errorPrefix : string :=
  "{" ++ String dquote ("error" ++ String dquote ":").

(** The clock does not go back while the mock module is initialised, and
    less than five minutes pass between two entries. *)
Definition steadyClock (loadTime : nat -> Z) : Prop :=
  forall k, (loadTime k <= loadTime (S k) < loadTime k + 300000)%Z.

(** The entries of the mock module that pass the three filters of a query,
    before the truncation and the sort. *)
Definition matching (loadTime : nat -> Z) (now : Z) (query : string)
  : list MockLogTool.LogEntry :=
  let text := toLowerCase query in
  Spec.retain (Spec.recencySignal text)
    (fun minutes r => (now - minutes * 60000 <? MockLogTool.timestamp r)%Z)
    (Spec.retain (Spec.originSignal text)
       (fun name r => includes (MockLogTool.service r) name)
       (Spec.retain (Spec.severitySignal text)
          (fun s r => MockLogTool.severity r =? s)
          (MockLogTool.mockLogs loadTime))).

(** An entry passes the filters that the query text asks for. *)
Definition passes (now : Z) (query : string) (e : MockLogTool.LogEntry) : Prop :=
  let text := toLowerCase query in
  (forall s, Spec.severitySignal text = Some s -> MockLogTool.severity e = s)
  /\ (forall name, Spec.originSignal text = Some name ->
                   includes (MockLogTool.service e) name = true)
  /\ (forall minutes, Spec.recencySignal text = Some minutes ->
                      (now - minutes * 60000 < MockLogTool.timestamp e)%Z).

(** A string does not end with white space. *)
Fixpoint endsClean (s : string) : bool :=
  match s with
  | EmptyString => true
  | String c EmptyString => negb (isWhiteSpace c)
  | String _ t => endsClean t
  end.

End MoreNotions.

(** ** More concrete runs *)

Module Runs.
Import JS Json Completion.

(** The first entry of the mock module when the clock reads 0. *)
Definition paymentTimeout : MockLogTool.LogEntry :=
  MockLogTool.mkLogEntry (-300000) "ERROR" "payment-service"
    "Payment gateway timeout after 30s"
    (Some "Connection timeout to payment-gateway.example.com")
    "trace-abc123" (Some 504%Z).

(** A model call that rejects. *)
Definition quotaExceeded (tool : Z -> string -> completion string)
  (prompt : string) : completion string :=
  Throw (ErrorObject "429 quota exceeded").

Definition noTool (now : Z) (query : string) : completion string :=
  Normal "[]".

(** An environment that sets PORT only. *)
Definition portOnly (value : string) : Config.Env :=
  fun name => if name =? "PORT" then Some value else None.

(** The state of the component after it is created at time 0. *)
Definition freshChat : Chat.State :=
  Chat.mkState "" [Chat.greeting "Hi!" 0] false None.

(** A blank turn, a turn the backend answers and a turn that finds no
    backend. *)
Definition threeTurns : list Chat.Turn :=
  [ Chat.mkTurn "   " (Chat.Rejected OtherValue) 1 2;
    Chat.mkTurn "Show me recent errors"
      (Chat.Resolved true 200 "OK"
         (Normal (JObject [("result", JString "No errors found.")]))) 3 4;
    Chat.mkTurn "Check for authentication errors"
      (Chat.Rejected (ErrorObject "Failed to fetch")) 5 6 ].

End Runs.

(** * Properties *)

(** ** Strings *)

Module StringFacts.
Import JS.

Lemma append_nil_r (s : string) : s ++ "" = s.
Proof. induction s; simpl; congruence. Qed.

Lemma append_assoc (a b c : string) : (a ++ b) ++ c = a ++ b ++ c.
Proof. induction a; simpl; congruence. Qed.

Lemma length_append (a b : string) :
  String.length (a ++ b) = String.length a + String.length b.
Proof. induction a; simpl; congruence. Qed.

Lemma toLowerCase_app (a b : string) :
  toLowerCase (a ++ b) = toLowerCase a ++ toLowerCase b.
Proof. induction a; simpl; congruence. Qed.

Lemma prefix_iff (x s : string) :
  prefix x s = true <-> exists b, s = x ++ b.
Proof.
  revert s; induction x as [|c x IH]; intros s; simpl.
  - destruct s; split; eauto.
  - destruct s as [|d s]; simpl.
    + split; [discriminate | intros [b H]; discriminate].
    + destruct (ascii_dec c d) as [->|ne].
      * rewrite IH. split; intros [b H]; exists b; congruence.
      * split; [discriminate | intros [b H]; congruence].
Qed.

Lemma includes_iff (s x : string) :
  includes s x = true <-> exists a b, s = a ++ x ++ b.
Proof.
  induction s as [|c s IH]; cbn [includes].
  - rewrite orb_false_r, prefix_iff. split.
    + intros [b H]. exists "", b. exact H.
    + intros [a [b H]]. destruct a; simpl in H.
      * eauto.
      * discriminate.
  - rewrite orb_true_iff, prefix_iff, IH. split.
    + intros [[b H] | [a [b H]]].
      * exists "", b. exact H.
      * exists (String c a), b. simpl. congruence.
    + intros [a [b H]]. destruct a as [|d a]; simpl in H.
      * left. eauto.
      * right. exists a, b. congruence.
Qed.

Lemma includes_within (a s b x : string) :
  includes s x = true -> includes (a ++ s ++ b) x = true.
Proof.
  rewrite !includes_iff. intros [p [q ->]].
  exists (a ++ p), (q ++ b). now rewrite !append_assoc.
Qed.

Lemma includes_trans (s y x : string) :
  includes s y = true -> includes y x = true -> includes s x = true.
Proof.
  intros Hs Hy. apply includes_iff in Hs. destruct Hs as [a [b ->]].
  now apply includes_within.
Qed.

Lemma trimStart_suffix (s : string) : exists a, s = a ++ trimStart s.
Proof.
  induction s as [|c s [a IH]]; simpl.
  - now exists "".
  - destruct (isWhiteSpace c).
    + exists (String c a). simpl. congruence.
    + now exists "".
Qed.

Lemma trimEnd_prefix (s : string) : exists b, s = trimEnd s ++ b.
Proof.
  induction s as [|c s [b IH]]; simpl.
  - now exists "".
  - destruct (trimEnd s) as [|d t] eqn:E.
    + destruct (isWhiteSpace c).
      * now exists (String c s).
      * exists b. simpl in *. congruence.
    + exists b. simpl in *. congruence.
Qed.

Lemma substring_prefix (n : nat) (s : string) : exists b, s = substring 0 n s ++ b.
Proof.
  revert s; induction n as [|n IH]; intros s.
  - exists s. now destruct s.
  - destruct s as [|c s]; simpl.
    + now exists "".
    + destruct (IH s) as [b Hb]. exists b. congruence.
Qed.

Lemma span_app (p : ascii -> bool) (s : string) :
  s = fst (span p s) ++ snd (span p s).
Proof.
  induction s as [|c s IH]; simpl; [reflexivity|].
  destruct (p c); [|reflexivity].
  destruct (span p s); simpl in *. congruence.
Qed.

Lemma span_all (p : ascii -> bool) (s : string) :
  Json.allChars p (fst (span p s)) = true.
Proof.
  induction s as [|c s IH]; simpl; [reflexivity|].
  destruct (p c) eqn:E; [|reflexivity].
  destruct (span p s); simpl in *. now rewrite E.
Qed.

End StringFacts.

(** ** The regular expression and the safety checks *)

Module SanitizerFacts.
Import JS Sanitizer Spec Notions StringFacts.

Lemma span_stops (p : ascii -> bool) (s : string) :
  stopsAt p (snd (span p s)) = true.
Proof.
  induction s as [|c s IH]; simpl; [reflexivity|].
  destruct (p c) eqn:E.
  - destruct (span p s); exact IH.
  - simpl. now rewrite E.
Qed.

Lemma span_app_stop (p : ascii -> bool) (r t : string) :
  stopsAt p t = true ->
  span p (r ++ t) = (fst (span p r), snd (span p r) ++ t).
Proof.
  intros Ht. induction r as [|c r IH]; simpl.
  - destruct t as [|d t]; simpl in *; [reflexivity|].
    now rewrite (negb_true_iff _) in Ht; rewrite Ht.
  - destruct (p c); [|reflexivity].
    rewrite IH. now destruct (span p r).
Qed.

Lemma span_all_app (p : ascii -> bool) (a t : string) :
  Json.allChars p a = true -> stopsAt p t = true -> span p (a ++ t) = (a, t).
Proof.
  intros Ha Ht. induction a as [|c a IH]; simpl in *.
  - destruct t as [|d t]; simpl in *; [reflexivity|].
    now rewrite (negb_true_iff _) in Ht; rewrite Ht.
  - apply andb_true_iff in Ha. destruct Ha as [Hc Ha].
    now rewrite Hc, IH.
Qed.

(** The letter l in either case is neither white space nor a digit. *)
Lemma lower_l (c : ascii) :
  lowerChar c = "l"%char -> isWhiteSpace c = false /\ isDigit c = false.
Proof.
  destruct c as [[|] [|] [|] [|] [|] [|] [|] [|]]; vm_compute;
    intros H; (discriminate H || (split; reflexivity)).
Qed.

Lemma space_not_l (c : ascii) : isWhiteSpace c = true -> lowerChar c <> "l"%char.
Proof. intros H E. apply lower_l in E. destruct E; congruence. Qed.

Lemma digit_not_l (c : ascii) : isDigit c = true -> lowerChar c <> "l"%char.
Proof. intros H E. apply lower_l in E. destruct E; congruence. Qed.

Lemma limitAt_first (c : ascii) (s : string) (m : LimitMatch) :
  limitAt true (String c s) = Some m -> lowerChar c = "l"%char.
Proof.
  destruct s as [|c2 [|c3 [|c4 [|c5 rest]]]]; try discriminate.
  unfold limitAt. cbn [toLowerCase String.eqb].
  destruct (Ascii.eqb_spec (lowerChar c) "l"); [auto | discriminate].
Qed.

Lemma limitAt_includes (s : string) (m : LimitMatch) :
  limitAt true s = Some m -> prefix "limit" (toLowerCase s) = true.
Proof.
  destruct s as [|c1 [|c2 [|c3 [|c4 [|c5 rest]]]]]; try discriminate.
  unfold limitAt.
  destruct (String.eqb_spec
    (toLowerCase (String c1 (String c2 (String c3 (String c4 (String c5 ""))))))
    "limit") as [E|]; [|discriminate].
  intros _. apply prefix_iff. exists (toLowerCase rest).
  cbn [toLowerCase] in *. injection E as -> -> -> -> ->. reflexivity.
Qed.

Lemma allChars_app (p : ascii -> bool) (a b : string) :
  Json.allChars p (a ++ b) = Json.allChars p a && Json.allChars p b.
Proof. induction a; simpl; [reflexivity|]. now rewrite IHa, andb_assoc. Qed.

Lemma allChars_impl (p q : ascii -> bool) (a : string) :
  (forall c, p c = true -> q c = true) ->
  Json.allChars p a = true -> Json.allChars q a = true.
Proof.
  intros H. induction a; simpl; [reflexivity|].
  rewrite !andb_true_iff. intros [? ?]. auto.
Qed.

(** The five characters at the start cannot spell "limit": one of them is
    known to be another letter. *)
Ltac word_differs :=
  unfold limitAt; cbn [toLowerCase];
  match goal with
  | |- context [String.eqb ?a ?b] =>
      let E := fresh "E" in
      destruct (String.eqb_spec a b) as [E|];
      [injection E; intros; congruence | reflexivity]
  end.

Lemma limitAt_short_app (b : string) (z : ascii) (t : string) :
  b <> "" -> String.length b < 5 -> lowerChar z = "l"%char ->
  limitAt true (b ++ String z t) = None /\ limitAt true b = None.
Proof.
  intros Hb Hlen Hz.
  destruct b as [|c1 [|c2 [|c3 [|c4 [|c5 r]]]]]; simpl in Hlen;
    try congruence; try lia; (split; [|reflexivity]).
  all: cbn [append].
  - destruct t as [|t1 [|t2 [|t3 t]]]; try reflexivity. word_differs.
  - destruct t as [|t1 [|t2 t]]; try reflexivity. word_differs.
  - destruct t as [|t1 t]; try reflexivity. word_differs.
  - word_differs.
Qed.

(** In front of a word that starts with the letter l, a match is decided by
    the text before that word. *)
Lemma limitAt_app_L (b : string) (z : ascii) (t : string) :
  b <> "" -> lowerChar z = "l"%char ->
  limitAt true (b ++ String z t)
  = option_map (fun m => withAfter m (String z t)) (limitAt true b).
Proof.
  intros Hb Hz.
  destruct (Nat.lt_ge_cases (String.length b) 5) as [Hlen|Hlen].
  - destruct (limitAt_short_app b z t Hb Hlen Hz) as [-> ->]. reflexivity.
  - destruct b as [|c1 [|c2 [|c3 [|c4 [|c5 r]]]]]; simpl in Hlen; try lia.
    cbn [append]. unfold limitAt.
    destruct (String.eqb _ "limit"); [|reflexivity].
    destruct (lower_l z Hz) as [Hw Hd].
    rewrite (span_app_stop isWhiteSpace r (String z t))
      by (simpl; now rewrite Hw).
    destruct (span isWhiteSpace r) as [sp r1]. cbn [fst snd].
    rewrite (span_app_stop isDigit r1 (String z t))
      by (simpl; now rewrite Hd).
    destruct (span isDigit r1) as [ds r2]. cbn [fst snd].
    destruct sp, ds; reflexivity.
Qed.

Lemma matchLimit_cons (c : ascii) (s : string) :
  matchLimit true (String c s)
  = match limitAt true (String c s) with
    | Some m => Some m
    | None => option_map (withBefore (String c "")) (matchLimit true s)
    end.
Proof.
  cbn [matchLimit]. destruct (limitAt true (String c s)); [reflexivity|].
  destruct (matchLimit true s); reflexivity.
Qed.

Lemma limitClauses_cons (c : ascii) (s : string) :
  limitClauses (String c s)
  = ((match limitAt true (String c s) with
      | Some m => [parseInt (group1 m)]
      | None => []
      end) ++ limitClauses s)%list.
Proof. reflexivity. Qed.

Lemma matchLimit_app_L (b : string) (z : ascii) (t : string) :
  lowerChar z = "l"%char ->
  matchLimit true (b ++ String z t)
  = match matchLimit true b with
    | Some m => Some (withAfter m (String z t))
    | None => option_map (withBefore b) (matchLimit true (String z t))
    end.
Proof.
  intros Hz. remember (matchLimit true (String z t)) as found eqn:Hfound.
  induction b as [|c b IH].
  - cbn [append]. change (matchLimit true "") with (@None LimitMatch).
    rewrite <- Hfound. destruct found as [[]|]; reflexivity.
  - change (String c b ++ String z t) with (String c (b ++ String z t)).
    rewrite (matchLimit_cons c b), (matchLimit_cons c (b ++ String z t)).
    change (String c (b ++ String z t)) with (String c b ++ String z t).
    rewrite limitAt_app_L by (auto; discriminate).
    destruct (limitAt true (String c b)) as [m|]; [reflexivity|].
    cbn [option_map]. rewrite IH.
    destruct (matchLimit true b) as [m|]; [reflexivity|].
    destruct found as [m|]; reflexivity.
Qed.

Lemma limitClauses_app_L (b : string) (z : ascii) (t : string) :
  lowerChar z = "l"%char ->
  limitClauses (b ++ String z t)
  = (limitClauses b ++ limitClauses (String z t))%list.
Proof.
  intros Hz. induction b as [|c b IH].
  - reflexivity.
  - change (String c b ++ String z t) with (String c (b ++ String z t)).
    rewrite (limitClauses_cons c b), limitClauses_cons.
    change (String c (b ++ String z t)) with (String c b ++ String z t).
    rewrite limitAt_app_L by (auto; discriminate).
    rewrite IH, <- app_assoc.
    destruct (limitAt true (String c b)); reflexivity.
Qed.

Lemma limitAt_not_l (c : ascii) (s : string) :
  lowerChar c <> "l"%char -> limitAt true (String c s) = None.
Proof.
  intros H. destruct (limitAt true (String c s)) eqn:E; [|reflexivity].
  apply limitAt_first in E. contradiction.
Qed.

Lemma limitClauses_noL (x t : string) :
  noL x = true -> limitClauses (x ++ t) = limitClauses t.
Proof.
  induction x as [|c x IH]; [reflexivity|]. unfold noL in *.
  cbn [Json.allChars]. rewrite andb_true_iff, negb_true_iff. intros [Hc Hx].
  change (String c x ++ t) with (String c (x ++ t)).
  rewrite limitClauses_cons, limitAt_not_l.
  - apply IH, Hx.
  - intros E. rewrite E in Hc. discriminate.
Qed.

(** The shape of a match found at the start of a text. *)
Lemma limitAt_shape (s : string) (m : LimitMatch) :
  limitAt true s = Some m ->
  before m = ""
  /\ s = whole m ++ after m
  /\ (exists c w, whole m = String c w /\ lowerChar c = "l"%char /\ noL w = true)
  /\ group1 m <> ""
  /\ Json.allChars isDigit (group1 m) = true
  /\ stopsAt isDigit (after m) = true.
Proof.
  destruct s as [|c1 [|c2 [|c3 [|c4 [|c5 rest]]]]]; try discriminate.
  unfold limitAt.
  destruct (String.eqb_spec
    (toLowerCase (String c1 (String c2 (String c3 (String c4 (String c5 ""))))))
    "limit") as [E|]; [|discriminate].
  cbn [toLowerCase] in E. injection E as E1 E2 E3 E4 E5.
  pose proof (span_app isWhiteSpace rest) as Hrest.
  pose proof (span_all isWhiteSpace rest) as Hsp.
  destruct (span isWhiteSpace rest) as [sp r1]. cbn [fst snd] in *.
  pose proof (span_app isDigit r1) as Hr1.
  pose proof (span_all isDigit r1) as Hds.
  pose proof (span_stops isDigit r1) as Hstop.
  destruct (span isDigit r1) as [ds r2]. cbn [fst snd] in *.
  destruct sp as [|s0 sp]; [discriminate|].
  destruct ds as [|d0 ds]; [discriminate|].
  intros H. injection H as <-. cbn [before whole group1 after].
  repeat split; try assumption; try discriminate.
  - rewrite Hrest, Hr1. cbn [append]. now rewrite !append_assoc.
  - exists c1, (String c2 (String c3 (String c4 (String c5 "")))
                  ++ String s0 sp ++ String d0 ds).
    split; [reflexivity|]. split; [assumption|].
    unfold noL. rewrite !allChars_app, !andb_true_iff. repeat split.
    + cbn [Json.allChars]. now rewrite E2, E3, E4, E5.
    + apply (allChars_impl isWhiteSpace); [|exact Hsp].
      intros c Hc. apply negb_true_iff.
      destruct (Ascii.eqb_spec (lowerChar c) "l") as [E|]; [|reflexivity].
      now apply space_not_l in Hc.
    + apply (allChars_impl isDigit); [|exact Hds].
      intros c Hc. apply negb_true_iff.
      destruct (Ascii.eqb_spec (lowerChar c) "l") as [E|]; [|reflexivity].
      now apply digit_not_l in Hc.
Qed.

(** What a successful leftmost match says about the text. *)
Lemma matchLimit_inv (s : string) (m : LimitMatch) :
  matchLimit true s = Some m ->
  s = before m ++ whole m ++ after m
  /\ limitAt true (whole m ++ after m)
     = Some (mkLimitMatch "" (whole m) (group1 m) (after m))
  /\ matchLimit true (before m) = None
  /\ limitClauses (before m) = [].
Proof.
  revert m. induction s as [|c t IH]; intros m; [discriminate|].
  rewrite matchLimit_cons.
  destruct (limitAt true (String c t)) as [m0|] eqn:E.
  - intros H. injection H as <-.
    destruct (limitAt_shape _ _ E) as [Hb [Hs _]].
    destruct m0 as [b w g a]. cbn [before whole group1 after] in *. subst b.
    rewrite <- Hs. auto.
  - destruct (matchLimit true t) as [m'|] eqn:Et; [|discriminate].
    cbn [option_map]. intros H. injection H as <-.
    destruct (IH m' eq_refl) as [Ht [Hat [Hnone Hnil]]].
    cbn [withBefore before whole group1 after append].
    destruct (limitAt_shape _ _ Hat) as [_ [_ [[z [w [Hw [Hz _]]]] _]]].
    cbn [whole] in Hw.
    assert (Hc : limitAt true (String c (before m')) = None).
    { rewrite Ht, Hw in E. cbn [append] in E.
      change (String c (before m' ++ String z (w ++ after m')))
        with (String c (before m') ++ String z (w ++ after m')) in E.
      rewrite limitAt_app_L in E by (auto; discriminate).
      destruct (limitAt true (String c (before m'))); [discriminate|reflexivity]. }
    repeat split.
    + now rewrite Ht at 1.
    + exact Hat.
    + rewrite matchLimit_cons, Hc, Hnone. reflexivity.
    + rewrite limitClauses_cons, Hc, Hnil. reflexivity.
Qed.

Lemma limitAt_LIMIT_50 (t : string) :
  stopsAt isDigit t = true ->
  limitAt true ("LIMIT 50" ++ t) = Some (mkLimitMatch "" "LIMIT 50" "50" t).
Proof.
  intros Ht. cbn [append]. unfold limitAt.
  change (toLowerCase "LIMIT" =? "limit") with true. cbv iota.
  change (String " " (String "5" (String "0" t))) with (" " ++ "50" ++ t).
  rewrite (span_all_app isWhiteSpace " " ("50" ++ t)) by reflexivity.
  rewrite (span_all_app isDigit "50" t) by (reflexivity || exact Ht).
  reflexivity.
Qed.

(** A text without the letters of "limit" has no clause. *)
Lemma noLimit_none (b : string) :
  includes (toLowerCase b) "limit" = false ->
  matchLimit true b = None /\ limitClauses b = [].
Proof.
  induction b as [|c b IH]; [auto|].
  cbn [toLowerCase includes]. rewrite orb_false_iff. intros [Hp Hi].
  destruct (IH Hi) as [Hm Hl].
  assert (Hc : limitAt true (String c b) = None).
  { destruct (limitAt true (String c b)) eqn:E; [|reflexivity].
    apply limitAt_includes in E. cbn [toLowerCase] in E. congruence. }
  now rewrite matchLimit_cons, limitClauses_cons, Hc, Hm, Hl.
Qed.

Lemma prefix_nil (s : string) : prefix "" s = true.
Proof. now destruct s. Qed.

Lemma prefix_limit_space (s : string) :
  prefix "limit" (s ++ " ") = prefix "limit" s.
Proof.
  destruct s as [|c1 [|c2 [|c3 [|c4 [|c5 r]]]]]; cbn [append prefix];
    repeat match goal with
           | |- context [ascii_dec ?a ?b] => destruct (ascii_dec a b)
           end;
    try reflexivity; try discriminate.
  now rewrite !prefix_nil.
Qed.

Lemma includes_limit_space (a : string) :
  includes (a ++ " ") "limit" = includes a "limit".
Proof.
  induction a as [|c a IH]; [reflexivity|].
  change (String c a ++ " ") with (String c (a ++ " ")).
  cbn [includes]. rewrite IH. f_equal.
  apply (prefix_limit_space (String c a)).
Qed.

Lemma kept_within (query : string) : exists a b, query = a ++ kept query ++ b.
Proof.
  destruct (trimStart_suffix query) as [a Ha].
  destruct (trimEnd_prefix (trimStart query)) as [b Hb].
  fold (trim query) in Hb. unfold kept.
  destruct (endsWith (trim query) ";").
  - destruct (substring_prefix (String.length (trim query) - 1) (trim query))
      as [r Hr].
    fold (sliceEnd (trim query) 1) in Hr.
    exists a, (r ++ b). transitivity (a ++ trimStart query); [exact Ha|].
    f_equal. rewrite <- append_assoc, <- Hr. exact Hb.
  - exists a, b. transitivity (a ++ trimStart query); [exact Ha|].
    f_equal. exact Hb.
Qed.

Lemma ensureLimit_appends (query : string) :
  includes (toLowerCase query) "limit" = false ->
  ensureLimit query = kept query ++ " LIMIT 50".
Proof. intros H. unfold ensureLimit, kept. now rewrite H. Qed.

Lemma ensureLimit_keeps (query : string) :
  includes (toLowerCase query) "limit" = true -> ensureLimit query = query.
Proof. intros H. unfold ensureLimit. now rewrite H. Qed.

Lemma kept_noLimit (query : string) :
  includes (toLowerCase query) "limit" = false ->
  includes (toLowerCase (kept query ++ " ")) "limit" = false.
Proof.
  intros H. rewrite toLowerCase_app.
  change (toLowerCase " ") with " ". rewrite includes_limit_space.
  destruct (includes (toLowerCase (kept query)) "limit") eqn:E; [|reflexivity].
  destruct (kept_within query) as [a [b Hq]].
  rewrite Hq, !toLowerCase_app, includes_within in H; [discriminate|exact E].
Qed.

(** The appended clause is the only clause of the result, and it is left
    alone by the second check. *)
Lemma sanitize_appended (query : string) :
  includes (toLowerCase query) "limit" = false ->
  sanitize query = kept query ++ " LIMIT 50"
  /\ matchLimit true (sanitize query)
     = Some (mkLimitMatch (kept query ++ " ") "LIMIT 50" "50" "")
  /\ limitClauses (sanitize query) = [50%N].
Proof.
  intros H. unfold sanitize. rewrite (ensureLimit_appends _ H).
  destruct (noLimit_none _ (kept_noLimit _ H)) as [Hm Hl].
  assert (Hmatch : matchLimit true (kept query ++ " LIMIT 50")
                   = Some (mkLimitMatch (kept query ++ " ") "LIMIT 50" "50" "")).
  { change " LIMIT 50" with (" " ++ "LIMIT 50"). rewrite <- append_assoc.
    rewrite (matchLimit_app_L (kept query ++ " ") "L" "IMIT 50") by reflexivity.
    rewrite Hm. change (matchLimit true "LIMIT 50")
      with (Some (mkLimitMatch "" "LIMIT 50" "50" "")).
    unfold option_map, withBefore. cbn [before whole group1 after].
    now rewrite append_nil_r. }
  assert (Hcap : capLimit (kept query ++ " LIMIT 50") = kept query ++ " LIMIT 50").
  { unfold capLimit. rewrite Hmatch. reflexivity. }
  rewrite Hcap. repeat split; [exact Hmatch|].
  change " LIMIT 50" with (" " ++ "LIMIT 50"). rewrite <- append_assoc.
  rewrite (limitClauses_app_L (kept query ++ " ") "L" "IMIT 50") by reflexivity.
  now rewrite Hl.
Qed.

(** The second check rewrites the leftmost clause when its cap is above 100
    and changes nothing else. *)
Lemma sanitize_leftmost (query : string) (m : LimitMatch) :
  matchLimit true query = Some m ->
  ensureLimit query = query
  /\ limitClauses query = parseInt (group1 m) :: limitClauses (after m)
  /\ sanitize query
     = (if (100 <? parseInt (group1 m))%N
        then before m ++ "LIMIT 50" ++ after m else query)
  /\ matchLimit true (before m ++ "LIMIT 50" ++ after m)
     = Some (mkLimitMatch (before m) "LIMIT 50" "50" (after m))
  /\ limitClauses (before m ++ "LIMIT 50" ++ after m)
     = 50%N :: limitClauses (after m).
Proof.
  intros H. destruct (matchLimit_inv _ _ H) as [Hq [Hat [Hnone Hnil]]].
  destruct (limitAt_shape _ _ Hat) as [_ [_ [[z [w [Hw [Hz HnoL]]]] [_ [_ Hstop]]]]].
  cbn [whole after] in *.
  assert (Hkeep : ensureLimit query = query).
  { apply ensureLimit_keeps. apply limitAt_includes in Hat.
    apply prefix_iff in Hat. destruct Hat as [r Hr].
    apply includes_iff. exists (toLowerCase (before m)), r.
    rewrite Hq at 1. now rewrite toLowerCase_app, Hr. }
  split; [exact Hkeep|]. split; [|split; [|split]].
  - rewrite Hq at 1. rewrite Hw in *. cbn [append] in *.
    rewrite limitClauses_app_L, Hnil by exact Hz.
    rewrite limitClauses_cons, Hat, limitClauses_noL by exact HnoL.
    reflexivity.
  - unfold sanitize. rewrite Hkeep. unfold capLimit, replaceLimit.
    rewrite H. reflexivity.
  - pose proof (limitAt_LIMIT_50 _ Hstop) as H50.
    change ("LIMIT 50" ++ after m) with (String "L" ("IMIT 50" ++ after m)) in *.
    rewrite (matchLimit_app_L (before m) "L" ("IMIT 50" ++ after m)) by reflexivity.
    rewrite Hnone, matchLimit_cons, H50.
    unfold option_map, withBefore. cbn [before whole group1 after].
    now rewrite append_nil_r.
  - pose proof (limitAt_LIMIT_50 _ Hstop) as H50.
    change ("LIMIT 50" ++ after m) with (String "L" ("IMIT 50" ++ after m)) in *.
    rewrite (limitClauses_app_L (before m) "L" ("IMIT 50" ++ after m)) by reflexivity.
    rewrite Hnil, limitClauses_cons, H50.
    rewrite (limitClauses_noL "IMIT 50" (after m)) by reflexivity.
    reflexivity.
Qed.

End SanitizerFacts.

(** ** [JSON.stringify] produces JSON text *)

Module JsonFacts.
Import JS Json Notions StringFacts SanitizerFacts.

Lemma quoteChar_chars (c : ascii) (t : string) :
  isJsonChars (quoteChar c ++ t) = isJsonChars t.
Proof.
  destruct c as [[|] [|] [|] [|] [|] [|] [|] [|]]; reflexivity.
Qed.

Lemma quoteBody_chars (s : string) : isJsonChars (quoteBody s) = true.
Proof.
  induction s as [|c s IH]; [reflexivity|].
  cbn [quoteBody]. now rewrite quoteChar_chars.
Qed.

Lemma quote_value (s : string) : JsonValue (quote s).
Proof. apply JV_string, quoteBody_chars. Qed.

Lemma string_of_uint_digits (d : Decimal.uint) :
  allChars isDigit (NilEmpty.string_of_uint d) = true.
Proof. induction d; simpl; auto. Qed.

Lemma span_digits (s : string) :
  allChars isDigit s = true -> span isDigit s = (s, "").
Proof.
  intros H. pose proof (span_all_app isDigit s "" H eq_refl) as E.
  now rewrite append_nil_r in E.
Qed.

Lemma nzhead_head (d : Decimal.uint) :
  match Decimal.nzhead d with Decimal.D0 _ => False | _ => True end.
Proof. induction d; simpl; auto. Qed.

Lemma to_uint_normal (n : N) : Decimal.unorm (N.to_uint n) = N.to_uint n.
Proof.
  rewrite <- DecimalN.Unsigned.to_of. now rewrite DecimalN.Unsigned.of_to.
Qed.

Lemma digits_number (d : Decimal.uint) :
  Decimal.unorm d = d ->
  isJsonNumber (NilEmpty.string_of_uint d) = true
  /\ isJsonNumber ("-" ++ NilEmpty.string_of_uint d) = true.
Proof.
  intros H. pose proof (nzhead_head d) as Hh. unfold Decimal.unorm in H.
  destruct (Decimal.nzhead d) as [|u|u|u|u|u|u|u|u|u|u] eqn:E;
    try contradiction; subst d; (split; [|cbn [append]]);
    try reflexivity; clear E Hh;
    cbn [NilEmpty.string_of_uint]; unfold isJsonNumber, numberInt;
    simpl; rewrite (span_digits _ (string_of_uint_digits u)); reflexivity.
Qed.

Lemma numberToString_number (z : Z) : isJsonNumber (numberToString z) = true.
Proof.
  unfold numberToString.
  destruct (digits_number _ (to_uint_normal (Z.abs_N z))) as [H1 H2].
  now destruct (z <? 0)%Z.
Qed.

Ltac normalize_append :=
  repeat (progress cbn [append] || rewrite append_assoc || rewrite append_nil_r).

Ltac same_text H :=
  match type of H with
  | JsonValue ?a =>
      match goal with
      | |- JsonValue ?b =>
          replace b with a by (unfold newline; now normalize_append); exact H
      end
  end.

Lemma concat_cons2 (sep x y : string) (l : list string) :
  String.concat sep (x :: y :: l) = x ++ sep ++ String.concat sep (y :: l).
Proof. reflexivity. Qed.

(** Values separated by commas, each after the white space [w1] and the
    last before the white space [w2], are the elements of an array. *)
Lemma elements_concat (w1 w2 : string) (parts : list string) :
  parts <> [] -> Forall JsonValue parts ->
  allChars isJsonSpace w1 = true -> allChars isJsonSpace w2 = true ->
  JsonElements (w1 ++ String.concat ("," ++ w1) parts ++ w2).
Proof.
  intros Hne Hall H1 H2.
  induction parts as [|x [|y l] IH]; [congruence| |].
  - apply JE_last. apply JE_element; auto. now inversion Hall.
  - rewrite concat_cons2.
    replace (w1 ++ (x ++ ("," ++ w1) ++ String.concat ("," ++ w1) (y :: l)) ++ w2)
      with ((w1 ++ x ++ "") ++ "," ++ (w1 ++ String.concat ("," ++ w1) (y :: l) ++ w2))
      by (now rewrite !append_assoc, ?append_nil_r).
    inversion Hall; subst. apply JE_more.
    + apply JE_element; auto.
    + apply IH; [discriminate | assumption].
Qed.

Lemma member_text (w1 sp w2 part : string) :
  PropertyText sp part ->
  allChars isJsonSpace w1 = true -> allChars isJsonSpace sp = true ->
  allChars isJsonSpace w2 = true ->
  JsonMember (w1 ++ part ++ w2).
Proof.
  intros [k [v [-> Hv]]] H1 Hsp H2.
  replace (w1 ++ (quote k ++ (":" ++ sp) ++ v) ++ w2)
    with (w1 ++ String dquote (quoteBody k ++ String dquote "") ++ "" ++ ":"
             ++ (sp ++ v ++ w2))
    by (unfold quote; now normalize_append).
  apply JM_member; auto using quoteBody_chars.
  apply JE_element; auto.
Qed.

Lemma members_concat (w1 sp w2 : string) (parts : list string) :
  parts <> [] -> Forall (PropertyText sp) parts ->
  allChars isJsonSpace w1 = true -> allChars isJsonSpace sp = true ->
  allChars isJsonSpace w2 = true ->
  JsonMembers (w1 ++ String.concat ("," ++ w1) parts ++ w2).
Proof.
  intros Hne Hall H1 Hsp H2.
  induction parts as [|x [|y l] IH]; [congruence| |].
  - apply JM_last. apply (member_text w1 sp w2); auto. now inversion Hall.
  - rewrite concat_cons2.
    replace (w1 ++ (x ++ ("," ++ w1) ++ String.concat ("," ++ w1) (y :: l)) ++ w2)
      with ((w1 ++ x ++ "") ++ "," ++ (w1 ++ String.concat ("," ++ w1) (y :: l) ++ w2))
      by (now rewrite !append_assoc, ?append_nil_r).
    inversion Hall; subst. apply JM_more.
    + apply (member_text w1 sp ""); auto.
    + apply IH; [discriminate | assumption].
Qed.

Lemma newline_indent_space (indent : string) :
  allChars isJsonSpace indent = true ->
  allChars isJsonSpace (newline ++ indent) = true.
Proof. intros H. exact H. Qed.

(** Whatever the value and the indentation, [serialize] writes a JSON
    value. *)
Lemma serialize_value (j : json) :
  forall gap indent,
    allChars isJsonSpace gap = true -> allChars isJsonSpace indent = true ->
    JsonValue (serialize gap indent j).
Proof.
  induction j as [| b | z | s | items IH | fields IH] using json_ind;
    intros gap indent Hgap Hindent.
  - apply JV_null.
  - destruct b; [apply JV_true | apply JV_false].
  - apply JV_number, numberToString_number.
  - apply quote_value.
  - cbn [serialize].
    assert (Hin : allChars isJsonSpace (indent ++ gap) = true)
      by (rewrite allChars_app; now rewrite Hgap, Hindent).
    assert (Hparts : Forall JsonValue (map (serialize gap (indent ++ gap)) items)).
    { apply Forall_map. eapply Forall_impl; [|exact IH].
      intros x Hx. now apply Hx. }
    destruct items as [|x l]; [apply (JV_array_empty "" eq_refl)|].
    remember (map (serialize gap (indent ++ gap)) (x :: l)) as parts eqn:Ep.
    assert (Hne : parts <> []) by (subst parts; discriminate).
    destruct parts as [|p ps]; [congruence|].
    destruct (gap =? "") eqn:Eg.
    + pose proof (elements_concat "" "" (p :: ps) Hne Hparts eq_refl eq_refl) as He.
      cbn [append] in He. rewrite append_nil_r in He. now apply JV_array.
    + pose proof (elements_concat (newline ++ indent ++ gap) (newline ++ indent)
                    (p :: ps) Hne Hparts Hin Hindent) as He.
      apply JV_array in He. same_text He.
  - cbn [serialize].
    assert (Hin : allChars isJsonSpace (indent ++ gap) = true)
      by (rewrite allChars_app; now rewrite Hgap, Hindent).
    set (member := fun kv : string * json =>
      let (k, v) := kv in
      quote k ++ (if gap =? "" then ":" else ": ")
              ++ serialize gap (indent ++ gap) v).
    assert (Hparts : Forall (PropertyText (if gap =? "" then "" else " "))
                       (map member fields)).
    { apply Forall_map. eapply Forall_impl; [|exact IH].
      intros [k v] Hv. cbn [snd] in Hv. exists k, (serialize gap (indent ++ gap) v).
      split; [|now apply Hv]. unfold member. now destruct (gap =? ""). }
    destruct fields as [|x l]; [apply (JV_object_empty "" eq_refl)|].
    remember (map member (x :: l)) as parts eqn:Ep.
    assert (Hne : parts <> []) by (subst parts; discriminate).
    destruct parts as [|p ps]; [congruence|].
    destruct (gap =? "") eqn:Eg.
    + pose proof (members_concat "" "" "" (p :: ps) Hne Hparts
                    eq_refl eq_refl eq_refl) as He.
      cbn [append] in He. rewrite append_nil_r in He. now apply JV_object.
    + pose proof (members_concat (newline ++ indent ++ gap) " " (newline ++ indent)
                    (p :: ps) Hne Hparts Hin eq_refl Hindent) as He.
      apply JV_object in He. same_text He.
Qed.

(** [JSON.stringify(value)] and [JSON.stringify(value, null, 2)] parse as
    one JSON document. *)
Lemma stringify_text (j : json) : JsonText (stringify j).
Proof.
  pose proof (JE_element "" _ "" eq_refl (serialize_value j "" "" eq_refl eq_refl)
                eq_refl) as H.
  cbn [append] in H. now rewrite append_nil_r in H.
Qed.

Lemma stringify2_text (j : json) : JsonText (stringify2 j).
Proof.
  pose proof (JE_element "" _ "" eq_refl (serialize_value j "  " "" eq_refl eq_refl)
                eq_refl) as H.
  cbn [append] in H. now rewrite append_nil_r in H.
Qed.

(** A JSON value starts with one of a few characters. *)
Lemma JsonValue_start (v : string) :
  JsonValue v -> exists c t, v = String c t /\ startsValue c = true.
Proof.
  destruct 1 as [| | | s Hs | s Hs | w Hw | es Hes | w Hw | ms Hms];
    try (eexists _, _; split; reflexivity).
  destruct s as [|c t]; [discriminate|]. exists c, t. split; [reflexivity|].
  unfold isJsonNumber, numberInt in Hs. unfold startsValue.
  destruct (code c =? 45)%N eqn:E45; [reflexivity|].
  destruct (code c =? 48)%N eqn:E48.
  - apply N.eqb_eq in E48. unfold isDigit. now rewrite E48.
  - destruct (isDigit c); [reflexivity | discriminate].
Qed.

Lemma JsonText_start (c : ascii) (t : string) :
  JsonText (String c t) -> isJsonSpace c = false -> startsValue c = true.
Proof.
  unfold JsonText. intros H Hc. remember (String c t) as s eqn:Es.
  destruct H as [w1 v w2 H1 Hv H2].
  destruct w1 as [|d w1].
  - destruct (JsonValue_start v Hv) as [c' [t' [-> Hstart]]].
    cbn [append] in Es. now injection Es as <- _.
  - cbn [append allChars] in *. injection Es as <- _.
    rewrite Hc in H1. discriminate.
Qed.

(** The line the mock tool writes for an error is not JSON. *)
Lemma error_line_not_json (message : string) :
  ~ JsonText ("Error simulating log query: " ++ message).
Proof.
  cbn [append]. intros H. apply JsonText_start in H; [discriminate|reflexivity].
Qed.

Lemma serialize_object_start (gap indent : string) (fields : list (string * json)) :
  exists t, serialize gap indent (JObject fields) = String "{" t.
Proof.
  cbn [serialize]. destruct fields as [|x l]; [now eexists|].
  cbn [map]. destruct (gap =? ""); now eexists.
Qed.

Lemma envelope_is_object (j : json) :
  Spec.ResultEnvelope j -> exists fields, j = JObject fields.
Proof.
  intros [rows [H _]]. destruct j; try discriminate. now eexists.
Qed.

End JsonFacts.

(** ** The mock tool *)

Module MockFacts.
Import JS Json Completion MockLogTool Spec StringFacts.

Lemma slice0_length {A : Type} (items : list A) (n : N) :
  (N.of_nat (List.length (slice0 items n)) <= n)%N.
Proof.
  revert n. induction items as [|x l IH]; intros n; cbn [slice0]; [simpl; lia|].
  destruct (N.eqb_spec n 0); [simpl; lia|].
  cbn [List.length]. specialize (IH (N.pred n)). lia.
Qed.

Lemma slice0_firstn {A : Type} (items : list A) (n : N) :
  slice0 items n = firstn (N.to_nat n) items.
Proof.
  revert n. induction items as [|x l IH]; intros n; cbn [slice0].
  - now rewrite firstn_nil.
  - destruct (N.eqb_spec n 0) as [->|Hn]; [reflexivity|].
    replace (N.to_nat n) with (S (N.to_nat (N.pred n))) by lia.
    cbn [firstn]. now rewrite IH.
Qed.

Lemma slice0_incl {A : Type} (items : list A) (n : N) :
  incl (slice0 items n) items.
Proof.
  revert n. induction items as [|x l IH]; intros n; cbn [slice0].
  - apply incl_refl.
  - destruct (n =? 0)%N; [apply incl_nil_l|].
    apply incl_cons; [now left | apply incl_tl, IH].
Qed.

Section Sorting.

Variable A : Type.
Variable time : A -> Z.

Lemma insertBy_perm (x : A) (l : list A) :
  Permutation (x :: l) (insertBy (fun a b => (time b - time a)%Z) x l).
Proof.
  induction l as [|y l IH]; cbn [insertBy]; [reflexivity|].
  destruct (time y - time x <=? 0)%Z; [reflexivity|].
  rewrite perm_swap. now apply perm_skip.
Qed.

Lemma sort_perm (l : list A) :
  Permutation l (sort (fun a b => (time b - time a)%Z) l).
Proof.
  induction l as [|x l IH]; cbn [sort]; [reflexivity|].
  rewrite <- insertBy_perm. now apply perm_skip.
Qed.

Lemma insertBy_sorted (x : A) (l : list A) :
  StronglySorted (fun a b => (time b <= time a)%Z) l ->
  StronglySorted (fun a b => (time b <= time a)%Z)
    (insertBy (fun a b => (time b - time a)%Z) x l).
Proof.
  induction 1 as [|y l Hl IH Hy]; cbn [insertBy].
  - repeat constructor.
  - destruct (Z.leb_spec (time y - time x) 0) as [Hle|Hgt]; cbn beta in *.
    + constructor; [now constructor|].
      constructor; [lia|]. eapply Forall_impl; [|exact Hy].
      cbn beta. intros z Hz. lia.
    + constructor; [exact IH|].
      eapply Permutation_Forall; [apply insertBy_perm|].
      constructor; [lia | exact Hy].
Qed.

Lemma sort_sorted (l : list A) :
  StronglySorted (fun a b => (time b <= time a)%Z)
    (sort (fun a b => (time b - time a)%Z) l).
Proof.
  induction l as [|x l IH]; cbn [sort]; [constructor|].
  now apply insertBy_sorted.
Qed.

End Sorting.

(** The source's chain of tests and the specification's signals select the
    same records. *)
Lemma mentions_error (text : string) :
  includes text "severity = 'error'" || includes text "error"
  = includes text "error".
Proof.
  destruct (includes text "severity = 'error'") eqn:E; [|reflexivity].
  symmetry. now apply (includes_trans text "severity = 'error'" "error").
Qed.

Lemma mentions_warning (text : string) :
  includes text "severity = 'warning'" || includes text "warning"
  = includes text "warning".
Proof.
  destruct (includes text "severity = 'warning'") eqn:E; [|reflexivity].
  symmetry. now apply (includes_trans text "severity = 'warning'" "warning").
Qed.

Lemma filterLogs_selected (loadTime : nat -> Z) (now : Z) (query : string) :
  filterLogs loadTime now query
  = sort (fun a b => (timestamp b - timestamp a)%Z) (selected loadTime now query).
Proof.
  unfold filterLogs, selected, severitySignal, originSignal, recencySignal,
    rowCap, knownServices.
  cbn [find]. rewrite mentions_error, mentions_warning.
  destruct (includes (toLowerCase query) "error");
    destruct (includes (toLowerCase query) "warning");
    destruct (includes (toLowerCase query) "payment");
    destruct (includes (toLowerCase query) "checkout");
    destruct (includes (toLowerCase query) "auth");
    destruct (includes (toLowerCase query) "30 minute");
    destruct (includes (toLowerCase query) "1 hour");
    reflexivity.
Qed.

Lemma selected_truncated (loadTime : nat -> Z) (now : Z) (query : string) :
  selected loadTime now query = truncated loadTime now query.
Proof. unfold selected, truncated. apply slice0_firstn. Qed.

End MockFacts.

(** ** The Query Sanitizer (claims C5, C6, C10) *)

Import JS Sanitizer Json Completion Spec Notions Scenario.
Import StringFacts SanitizerFacts JsonFacts MockFacts.

Lemma matchLimit_none_clauses (s : string) :
  matchLimit true s = None -> limitClauses s = [].
Proof.
  induction s as [|c s IH]; [reflexivity|].
  rewrite matchLimit_cons, limitClauses_cons.
  destruct (limitAt true (String c s)); [discriminate|].
  destruct (matchLimit true s); [discriminate|].
  intros _. now rewrite IH.
Qed.

Lemma declaredCap_head (query : string) (n : N) (rest : list N) :
  limitClauses query = n :: rest ->
  exists m, matchLimit true query = Some m
            /\ parseInt (group1 m) = n /\ limitClauses (after m) = rest.
Proof.
  intros H. destruct (matchLimit true query) as [m|] eqn:E.
  - exists m. destruct (sanitize_leftmost _ _ E) as [_ [Hc _]].
    rewrite Hc in H. injection H as <- <-. auto.
  - apply matchLimit_none_clauses in E. congruence.
Qed.

(** C5: the first safety check misses what its comment announces ("Ensure
    query has a LIMIT clause").  A query without any row-limiting clause
    whose text contains the letters of "limit" inside a word is passed on as
    it is, without a clause. *)
Lemma unlimited_query_gets_no_clause :
  limitClauses unlimitedQuery = []
  /\ sanitize unlimitedQuery = unlimitedQuery
  /\ limitClauses (sanitize unlimitedQuery) <> [50%N].
Proof. vm_compute. repeat split; discriminate. Qed.

(** X17: for every query string that does not contain the letters of "limit"
    in any case, the output of the safety checks is the query, trimmed and
    without one final semicolon, followed by " LIMIT 50"; it contains exactly
    one limiting clause, and that clause caps at 50. *)
Theorem sanitizer_appends_default_limit (query : string) :
  includes (toLowerCase query) "limit" = false ->
  limitClauses query = []
  /\ sanitize query = kept query ++ " LIMIT 50"
  /\ limitClauses (sanitize query) = [50%N]
  /\ declaredCap (sanitize query) = Some 50%N.
Proof.
  intros H. destruct (sanitize_appended query H) as [Hs [Hm Hl]].
  repeat split; try assumption.
  - destruct (noLimit_none query H) as [_ Hnil]. exact Hnil.
  - unfold declaredCap. now rewrite Hm.
Qed.

Lemma sanitizer_appends_default_limit_witness :
  includes (toLowerCase "SELECT * FROM logs; ") "limit" = false
  /\ sanitize "SELECT * FROM logs; " = "SELECT * FROM logs LIMIT 50"
  /\ limitClauses (sanitize "SELECT * FROM logs; ") = [50%N].
Proof.
  assert (H : includes (toLowerCase "SELECT * FROM logs; ") "limit" = false)
    by (vm_compute; reflexivity).
  split; [exact H|].
  destruct (sanitizer_appends_default_limit _ H) as [_ [Hs [Hl _]]].
  split; [exact Hs | exact Hl].
Defined.

(** C6: the second safety check misses what its comment announces ("Prevent
    queries with LIMIT > 100").  A query whose second clause declares a cap
    above 100 keeps that clause: [match] and [replace] are used without the
    [g] flag and see the leftmost clause only. *)
Lemma nested_limit_is_not_capped :
  In 5000%N (limitClauses nestedQuery)
  /\ sanitize nestedQuery = nestedQuery
  /\ limitClauses (sanitize nestedQuery) = [10%N; 5000%N].
Proof. vm_compute. repeat split. right. now left. Qed.

(** X18: for every query string whose leftmost row-limiting clause declares
    the cap n, the second safety check rewrites that clause to "LIMIT 50"
    when n exceeds 100, so that the output's leftmost clause caps at 50, and
    leaves the query unchanged when n <= 100; the text around the clause is
    kept. *)
Theorem sanitizer_caps_leftmost_clause (query : string) (n : N) (rest : list N) :
  limitClauses query = n :: rest ->
  declaredCap query = Some n
  /\ ((100 < n)%N ->
      limitClauses (sanitize query) = 50%N :: rest
      /\ declaredCap (sanitize query) = Some 50%N
      /\ exists m, matchLimit true query = Some m
                   /\ sanitize query = before m ++ "LIMIT 50" ++ after m)
  /\ ((n <= 100)%N ->
      sanitize query = query /\ declaredCap (sanitize query) = Some n).
Proof.
  intros H. destruct (declaredCap_head _ _ _ H) as [m [Hm [Hn Hrest]]].
  destruct (sanitize_leftmost _ _ Hm) as [_ [_ [Hs [Hm50 Hl50]]]].
  subst n rest.
  assert (Hcap : declaredCap query = Some (parseInt (group1 m)))
    by (unfold declaredCap; now rewrite Hm).
  split; [exact Hcap|]. split.
  - intros Hgt. apply N.ltb_lt in Hgt. rewrite Hgt in Hs. rewrite Hs.
    repeat split; [exact Hl50 | |].
    + unfold declaredCap. now rewrite Hm50.
    + exists m. now split.
  - intros Hle. apply N.ltb_ge in Hle. rewrite Hle in Hs. rewrite Hs.
    now split.
Qed.

Lemma sanitizer_caps_leftmost_clause_witness :
  limitClauses "SELECT * FROM logs LIMIT 5000" = [5000%N]
  /\ limitClauses (sanitize "SELECT * FROM logs LIMIT 5000") = [50%N]
  /\ sanitize "SELECT * FROM logs LIMIT 100" = "SELECT * FROM logs LIMIT 100".
Proof.
  assert (H1 : limitClauses "SELECT * FROM logs LIMIT 5000" = [5000%N])
    by (vm_compute; reflexivity).
  assert (H2 : limitClauses "SELECT * FROM logs LIMIT 100" = [100%N])
    by (vm_compute; reflexivity).
  split; [exact H1|]. split.
  - destruct (sanitizer_caps_leftmost_clause _ _ _ H1) as [_ [Hgt _]].
    apply Hgt. reflexivity.
  - destruct (sanitizer_caps_leftmost_clause _ _ _ H2) as [_ [_ Hle]].
    apply Hle. discriminate.
Defined.

(** C10: the first check is a test for the letters of "limit", in any case,
    anywhere in the query: the check leaves the query as it is exactly when
    the test succeeds.  A query that has those letters only inside other
    words, so that it has no clause at all, gets no clause appended and
    leaves the Sanitizer as it came. *)
Theorem limit_substring_skips_append (query : string) :
  (ensureLimit query = query <-> includes (toLowerCase query) "limit" = true)
  /\ (includes (toLowerCase query) "limit" = true ->
      limitClauses query = [] ->
      sanitize query = query /\ limitClauses (sanitize query) = []).
Proof.
  split.
  - split; [|apply ensureLimit_keeps].
    intros Hk. destruct (includes (toLowerCase query) "limit") eqn:E;
      [reflexivity|].
    rewrite (ensureLimit_appends _ E) in Hk.
    rewrite <- Hk, toLowerCase_app in E.
    assert (Hin : includes (toLowerCase (kept query) ++ toLowerCase " LIMIT 50")
                    "limit" = true).
    { apply includes_iff. exists (toLowerCase (kept query) ++ " "), " 50".
      now rewrite append_assoc. }
    congruence.
  - intros H Hnil. pose proof (ensureLimit_keeps query H) as Hk.
    assert (Hs : sanitize query = query).
    { unfold sanitize. rewrite Hk. unfold capLimit.
      destruct (matchLimit true query) as [m|] eqn:E; [|reflexivity].
      destruct (sanitize_leftmost _ _ E) as [_ [Hc _]]. congruence. }
    now rewrite Hs.
Qed.

Lemma limit_substring_skips_append_witness :
  includes (toLowerCase unlimitedQuery) "limit" = true
  /\ limitClauses unlimitedQuery = []
  /\ sanitize unlimitedQuery = unlimitedQuery
  /\ sanitize rateLimitQuery = rateLimitQuery.
Proof.
  assert (H1 : includes (toLowerCase unlimitedQuery) "limit" = true)
    by (vm_compute; reflexivity).
  assert (H2 : includes (toLowerCase rateLimitQuery) "limit" = true)
    by (vm_compute; reflexivity).
  assert (H3 : limitClauses unlimitedQuery = []) by (vm_compute; reflexivity).
  assert (H4 : limitClauses rateLimitQuery = []) by (vm_compute; reflexivity).
  split; [exact H1|]. split; [exact H3|]. split.
  - destruct (limit_substring_skips_append unlimitedQuery) as [_ H].
    apply (H H1 H3).
  - destruct (limit_substring_skips_append rateLimitQuery) as [_ H].
    apply (H H2 H4).
Defined.

(** ** The tools (claims C1, C2, C7, C8) *)

Lemma live_catch_text (error : thrown) :
  exists j,
    LogTool.catchBlock error = Normal (stringify j)
    /\ (exists e, field "error" j = Some (JString e))
    /\ field "details" j = Some (JString (errorMessageOf error)).
Proof.
  unfold LogTool.catchBlock.
  destruct (includes (errorMessageOf error) "Not found: Table");
    [|destruct (includes (errorMessageOf error) "permission")];
    eexists; (split; [reflexivity|]); split; try reflexivity; eexists; reflexivity.
Qed.

(** What the [try] block of the BigQuery tool can complete with. *)
Lemma live_try_cases (Job : Type) (createQueryJob : string -> completion Job)
  (getQueryResults : Job -> completion (list json)) (query : string) :
  (exists e, LogTool.tryBlock Job createQueryJob getQueryResults query = Throw e)
  \/ (exists job,
        createQueryJob (sanitize query) = Normal job
        /\ getQueryResults job = Normal []
        /\ LogTool.tryBlock Job createQueryJob getQueryResults query
           = Normal (stringify (JObject
               [("message", JString "No logs found matching the query criteria.");
                ("rowCount", JNumber 0);
                ("data", JArray [])])))
  \/ (exists job rows,
        createQueryJob (sanitize query) = Normal job
        /\ getQueryResults job = Normal rows /\ rows <> []
        /\ LogTool.tryBlock Job createQueryJob getQueryResults query
           = Normal (stringify2 (JObject
               [("rowCount", JNumber (Z.of_nat (List.length rows)));
                ("data", JArray rows)]))).
Proof.
  unfold LogTool.tryBlock. fold (sanitize query).
  destruct (createQueryJob (sanitize query)) as [job|e] eqn:Ej; cbn [bind].
  - destruct (getQueryResults job) as [rows|e] eqn:Er; cbn [bind].
    + destruct rows as [|r rows].
      * right. left. exists job. auto.
      * right. right. exists job, (r :: rows).
        repeat split; auto. discriminate.
    + left. now exists e.
  - left. now exists e.
Qed.

Lemma live_tool_text (Job : Type) (createQueryJob : string -> completion Job)
  (getQueryResults : Job -> completion (list json)) (query : string) :
  exists s, LogTool.createQueryLogsTool Job createQueryJob getQueryResults query
            = Normal s /\ JsonText s.
Proof.
  unfold LogTool.createQueryLogsTool.
  destruct (live_try_cases Job createQueryJob getQueryResults query)
    as [[e ->] | [[job [_ [_ ->]]] | [job [rows [_ [_ [_ ->]]]]]]]; cbn [try_catch].
  - destruct (live_catch_text e) as [j [-> _]].
    eexists. split; [reflexivity | apply stringify_text].
  - eexists. split; [reflexivity | apply stringify_text].
  - eexists. split; [reflexivity | apply stringify2_text].
Qed.



(** The [catch] block of the mock tool, which no query reaches, would write
    a line of plain text. *)
Remark mock_catch_block_text (error : thrown) :
  MockLogTool.catchBlock error
  = Normal ("Error simulating log query: " ++ errorMessageOf error)
  /\ ~ JsonText ("Error simulating log query: " ++ errorMessageOf error).
Proof. split; [reflexivity | apply error_line_not_json]. Qed.



(** C2, as stated, fails: the mock tool returns the bare array of entries,
    here the empty one, and not an envelope with a row count and a
    message. *)
Lemma mock_returns_bare_array :
  MockLogTool.createQueryMockLogsTool millis loadedAtZero 0 "payment warning" = Normal "[]"
  /\ ~ (exists j gap, ResultEnvelope j /\ "[]" = serialize gap "" j).
Proof.
  split; [vm_compute; reflexivity|].
  intros [j [gap [Hj E]]]. destruct (envelope_is_object j Hj) as [fields ->].
  destruct (serialize_object_start gap "" fields) as [t Ht].
  rewrite Ht in E. discriminate.
Qed.

(** C2 (amended): every successful invocation of the BigQuery tool returns a
    ResultEnvelope: the row count, the rows (property [data]), a message
    when there are no rows, and the row count is the number of rows.  The
    mock tool returns the bare array of the selected entries, without row
    count or message; their number is at most the row cap. *)
Theorem result_envelope_shape :
  (forall (Job : Type) (createQueryJob : string -> completion Job)
          (getQueryResults : Job -> completion (list json))
          (query s : string),
      LogTool.tryBlock Job createQueryJob getQueryResults query = Normal s ->
      LogTool.createQueryLogsTool Job createQueryJob getQueryResults query = Normal s
      /\ exists j, ResultEnvelope j /\ (s = stringify j \/ s = stringify2 j))
  /\ (forall (toISOString : Z -> string) (loadTime : nat -> Z) (now : Z)
             (query : string),
        MockLogTool.createQueryMockLogsTool toISOString loadTime now query
        = Normal (stringify2 (JArray
            (map (MockLogTool.entryToJson toISOString)
                 (MockLogTool.filterLogs loadTime now query))))
        /\ (N.of_nat (List.length (MockLogTool.filterLogs loadTime now query))
            <= rowCap (toLowerCase query))%N).
Proof.
  split.
  - intros Job createQueryJob getQueryResults query s H.
    split; [unfold LogTool.createQueryLogsTool; now rewrite H|].
    destruct (live_try_cases Job createQueryJob getQueryResults query)
      as [[e He] | [[job [_ [_ He]]] | [job [rows [_ [_ [Hne He]]]]]]];
      rewrite He in H; [discriminate| |]; injection H as <-.
    + eexists. split; [|left; reflexivity].
      exists []. repeat split. intros _. eexists. reflexivity.
    + eexists. split; [|right; reflexivity].
      exists rows. repeat split. intros ->. congruence.
  - intros toISOString loadTime now query. split; [reflexivity|].
    rewrite filterLogs_selected.
    rewrite <- (Permutation_length
                  (sort_perm MockLogTool.LogEntry MockLogTool.timestamp _)).
    unfold selected. apply slice0_length.
Qed.

Lemma result_envelope_shape_witness :
  LogTool.tryBlock unit accept (storeOf []) "SELECT 1"
  = Normal (stringify (JObject
      [("message", JString "No logs found matching the query criteria.");
       ("rowCount", JNumber 0);
       ("data", JArray [])]))
  /\ exists j, ResultEnvelope j
               /\ LogTool.createQueryLogsTool unit accept (storeOf []) "SELECT 1"
                  = Normal (stringify j).
Proof.
  assert (H : LogTool.tryBlock unit accept (storeOf []) "SELECT 1"
              = Normal (stringify (JObject
                  [("message", JString "No logs found matching the query criteria.");
                   ("rowCount", JNumber 0);
                   ("data", JArray [])]))) by (vm_compute; reflexivity).
  split; [exact H|].
  destruct (proj1 result_envelope_shape unit accept (storeOf []) "SELECT 1" _ H)
    as [Hq _].
  eexists. split; [|exact Hq].
  exists []. repeat split. intros _. eexists. reflexivity.
Defined.

(** C7: the mock tool never fails, whatever the query.  Its [try] block
    completes normally, so no internal error arises; the tool returns the
    serialized array of the selected entries (the empty array when nothing
    matches), which is JSON text, never a thrown failure and never an
    ErrorEnvelope. *)
Theorem mock_tool_never_fails (toISOString : Z -> string) (loadTime : nat -> Z)
  (now : Z) (query : string) :
  exists s,
    MockLogTool.createQueryMockLogsTool toISOString loadTime now query = Normal s
    /\ s = stringify2 (JArray
             (map (MockLogTool.entryToJson toISOString)
                  (MockLogTool.filterLogs loadTime now query)))
    /\ JsonText s
    /\ (forall error,
          MockLogTool.tryBlock toISOString loadTime now query <> Throw error)
    /\ (forall gap j, ErrorEnvelope j -> s <> serialize gap "" j).
Proof.
  eexists. split; [reflexivity|]. split; [reflexivity|].
  split; [apply stringify2_text|]. split; [discriminate|].
  intros gap j [kind [message [Hk _]]] E.
  destruct j as [| b | z | t | items | fields]; try discriminate Hk.
  destruct (serialize_object_start gap "" fields) as [t Ht]. rewrite Ht in E.
  unfold stringify2 in E. cbn [serialize] in E.
  destruct (map (serialize "  " ("" ++ "  "))
              (map (MockLogTool.entryToJson toISOString)
                 (MockLogTool.filterLogs loadTime now query)));
    discriminate.
Qed.




(** ** The Synthetic Backend (claims C3, C4, C9) *)

(** The entries of severity ERROR, most recent first. *)
Example errors_query :
  traceIds (MockLogTool.filterLogs loadedAtZero 0 "errors")
  = ["trace-abc123"; "trace-def456"; "trace-jkl012"; "trace-mno345";
     "trace-pqr678"; "trace-vwx234"; "trace-bcd890"].
Proof. vm_compute. reflexivity. Qed.

(** Of two service names in the text, the first of the list decides. *)
Example first_origin_wins :
  originSignal (toLowerCase "checkout or payment failures") = Some "payment"
  /\ map MockLogTool.service
       (MockLogTool.filterLogs loadedAtZero 0 "checkout or payment failures")
     = ["payment-service"; "payment-service"; "payment-service"].
Proof. vm_compute. split; reflexivity. Qed.

(** The truncation comes before the sort and keeps the first entries of the
    filtered list. *)
Example limit_query :
  traceIds (MockLogTool.filterLogs loadedAtZero 0 "SELECT * FROM logs LIMIT 2")
  = ["trace-abc123"; "trace-def456"].
Proof. vm_compute. reflexivity. Qed.

(** C3: for every query string the mock tool selects the entries by the
    severity filter, then at most one origin filter, the first of "payment",
    "checkout", "auth" that the text contains, then the recency filter, then
    keeps the first entries up to the row cap (the numeric limit of the
    text, 50 by default), and then sorts what remains by timestamp
    descending. *)
Theorem synthetic_pipeline (toISOString : Z -> string) (loadTime : nat -> Z)
  (now : Z) (query : string) :
  MockLogTool.filterLogs loadTime now query
  = MockLogTool.sort
      (fun a b => (MockLogTool.timestamp b - MockLogTool.timestamp a)%Z)
      (truncated loadTime now query)
  /\ Permutation (truncated loadTime now query)
       (MockLogTool.filterLogs loadTime now query)
  /\ StronglySorted newerFirst (MockLogTool.filterLogs loadTime now query)
  /\ MockLogTool.createQueryMockLogsTool toISOString loadTime now query
     = Normal (stringify2 (JArray
         (map (MockLogTool.entryToJson toISOString)
              (MockLogTool.filterLogs loadTime now query)))).
Proof.
  assert (E : MockLogTool.filterLogs loadTime now query
              = MockLogTool.sort
                  (fun a b => (MockLogTool.timestamp b - MockLogTool.timestamp a)%Z)
                  (truncated loadTime now query))
    by (now rewrite filterLogs_selected, selected_truncated).
  split; [exact E|]. split; [|split; [|reflexivity]]; rewrite E.
  - apply (sort_perm MockLogTool.LogEntry MockLogTool.timestamp).
  - apply (sort_sorted MockLogTool.LogEntry MockLogTool.timestamp).
Qed.

Lemma synthetic_pipeline_witness :
  traceIds (MockLogTool.filterLogs loadedAtZero 0 "SELECT * FROM logs LIMIT 2")
  = ["trace-abc123"; "trace-def456"]
  /\ List.length (MockLogTool.filterLogs loadedAtZero 0 "") = 10%nat
  /\ map MockLogTool.service
       (MockLogTool.filterLogs loadedAtZero 0 "checkout or payment failures")
     = ["payment-service"; "payment-service"; "payment-service"].
Proof.
  destruct (synthetic_pipeline millis loadedAtZero 0
              "SELECT * FROM logs LIMIT 2") as [H2 _].
  destruct (synthetic_pipeline millis loadedAtZero 0 "") as [_ [P0 _]].
  destruct (synthetic_pipeline millis loadedAtZero 0
              "checkout or payment failures") as [H3 _].
  split; [rewrite H2; vm_compute; reflexivity|]. split.
  - rewrite <- (Permutation_length P0). vm_compute. reflexivity.
  - rewrite H3. vm_compute. reflexivity.
Defined.

(** C4, as stated, fails: the BigQuery tool returns the rows in the order
    the store gave them, here the older row first. *)
Lemma live_rows_keep_store_order :
  let rows := [rowAt "2025-11-28T10:00:00.000Z"; rowAt "2025-11-28T10:05:00.000Z"] in
  LogTool.createQueryLogsTool unit accept (storeOf rows)
    "SELECT * FROM logs ORDER BY timestamp LIMIT 2"
  = Normal (stringify2 (JObject
      [("rowCount", JNumber 2); ("data", JArray rows)]))
  /\ ~ RecencyOrdered rows.
Proof.
  split; [vm_compute; reflexivity|].
  intros H. inversion H as [|a l _ Hall]; subst.
  inversion Hall as [|b l' Hab _]; subst.
  vm_compute in Hab. discriminate.
Qed.

(** C4 (amended): the entries the mock tool returns are in non-increasing
    order of timestamp, because it sorts them; the BigQuery tool does not
    sort: its envelope carries the rows exactly as the store returned them,
    in the store's order. *)
Theorem recency_order_of_rows :
  (forall (loadTime : nat -> Z) (now : Z) (query : string),
      StronglySorted newerFirst (MockLogTool.filterLogs loadTime now query))
  /\ (forall (Job : Type) (createQueryJob : string -> completion Job)
             (getQueryResults : Job -> completion (list json))
             (query : string) (job : Job) (rows : list json),
        createQueryJob (sanitize query) = Normal job ->
        getQueryResults job = Normal rows ->
        rows <> [] ->
        LogTool.createQueryLogsTool Job createQueryJob getQueryResults query
        = Normal (stringify2 (JObject
            [("rowCount", JNumber (Z.of_nat (List.length rows)));
             ("data", JArray rows)]))).
Proof.
  split.
  - intros loadTime now query. rewrite filterLogs_selected.
    apply (sort_sorted MockLogTool.LogEntry MockLogTool.timestamp).
  - intros Job createQueryJob getQueryResults query job rows Hj Hr Hne.
    unfold LogTool.createQueryLogsTool, LogTool.tryBlock. fold (sanitize query).
    rewrite Hj. cbn [bind]. rewrite Hr. cbn [bind].
    destruct rows; [congruence | reflexivity].
Qed.

Lemma recency_order_of_rows_witness :
  let rows := [rowAt "2025-11-28T10:05:00.000Z"; rowAt "2025-11-28T10:00:00.000Z"] in
  accept (sanitize "SELECT 1") = Normal tt
  /\ storeOf rows tt = Normal rows
  /\ rows <> []
  /\ LogTool.createQueryLogsTool unit accept (storeOf rows) "SELECT 1"
     = Normal (stringify2 (JObject
         [("rowCount", JNumber 2); ("data", JArray rows)])).
Proof.
  intros rows. split; [reflexivity|]. split; [reflexivity|].
  split; [discriminate|].
  apply (proj2 recency_order_of_rows unit accept (storeOf rows) "SELECT 1" tt rows);
    [reflexivity | reflexivity | discriminate].
Defined.

(** C9, as stated, fails: with a recency phrase in the query the matched
    trace identifiers depend on when the tool runs; five minutes later the
    entry of trace-mno345 has left the 30-minute window. *)
Lemma recency_window_moves :
  In "trace-mno345"
    (traceIds (MockLogTool.filterLogs loadedAtZero 0 "last 30 minutes"))
  /\ ~ In "trace-mno345"
       (traceIds (MockLogTool.filterLogs loadedAtZero 300000 "last 30 minutes")).
Proof.
  split.
  - vm_compute. tauto.
  - vm_compute. intros H. repeat (destruct H as [H|H]; [discriminate H|]).
    exact H.
Qed.

(** C9 (amended): for a query without a recency phrase (neither "30 minute"
    nor "1 hour" in its lower-cased text), two invocations of the mock tool
    return the same string, whatever the clock reads, and so the same trace
    identifiers. *)
Theorem mock_tool_is_repeatable (toISOString : Z -> string)
  (loadTime : nat -> Z) (now1 now2 : Z) (query : string) :
  includes (toLowerCase query) "30 minute" = false ->
  includes (toLowerCase query) "1 hour" = false ->
  MockLogTool.createQueryMockLogsTool toISOString loadTime now1 query
  = MockLogTool.createQueryMockLogsTool toISOString loadTime now2 query
  /\ traceIds (MockLogTool.filterLogs loadTime now1 query)
     = traceIds (MockLogTool.filterLogs loadTime now2 query).
Proof.
  intros H30 H60.
  assert (E : MockLogTool.filterLogs loadTime now1 query
              = MockLogTool.filterLogs loadTime now2 query).
  { unfold MockLogTool.filterLogs. now rewrite H30, H60. }
  unfold MockLogTool.createQueryMockLogsTool, MockLogTool.tryBlock. now rewrite E.
Qed.

Lemma mock_tool_is_repeatable_witness :
  includes (toLowerCase "payment errors") "30 minute" = false
  /\ includes (toLowerCase "payment errors") "1 hour" = false
  /\ MockLogTool.createQueryMockLogsTool millis loadedAtZero 0 "payment errors"
     = MockLogTool.createQueryMockLogsTool millis loadedAtZero 3600000 "payment errors".
Proof.
  assert (H1 : includes (toLowerCase "payment errors") "30 minute" = false)
    by (vm_compute; reflexivity).
  assert (H2 : includes (toLowerCase "payment errors") "1 hour" = false)
    by (vm_compute; reflexivity).
  split; [exact H1|]. split; [exact H2|].
  apply (mock_tool_is_repeatable millis loadedAtZero 0 3600000 _ H1 H2).
Defined.

(** * Further properties of the code *)

(** ** The safety checks, beyond the claims (logTool.ts, lines 39-57) *)

Import MoreNotions.

(** The ways through the two checks. *)
Lemma sanitize_cases (query : string) :
  (includes (toLowerCase query) "limit" = false
   /\ sanitize query = kept query ++ " LIMIT 50"
   /\ matchLimit true (sanitize query)
      = Some (mkLimitMatch (kept query ++ " ") "LIMIT 50" "50" ""))
  \/ (includes (toLowerCase query) "limit" = true
      /\ matchLimit true query = None /\ sanitize query = query)
  \/ (exists m, matchLimit true query = Some m
                /\ (parseInt (group1 m) <= 100)%N /\ sanitize query = query)
  \/ (exists m, matchLimit true query = Some m
                /\ (100 < parseInt (group1 m))%N
                /\ sanitize query = before m ++ "LIMIT 50" ++ after m
                /\ matchLimit true (sanitize query)
                   = Some (mkLimitMatch (before m) "LIMIT 50" "50" (after m))).
Proof.
  destruct (matchLimit true query) as [m|] eqn:Em.
  - destruct (sanitize_leftmost _ _ Em) as [_ [_ [Hs [Hm50 _]]]].
    destruct (N.ltb_spec 100 (parseInt (group1 m))) as [Hgt|Hle].
    + right. right. right. exists m. rewrite Hs. auto.
    + right. right. left. exists m. auto.
  - destruct (includes (toLowerCase query) "limit") eqn:Ei.
    + right. left. repeat split.
      unfold sanitize. rewrite (ensureLimit_keeps _ Ei). unfold capLimit.
      now rewrite Em.
    + left. destruct (sanitize_appended _ Ei) as [Hs [Hm _]]. auto.
Qed.

(** X1: whatever the query, the leftmost row-limiting clause of the
    sanitized query declares at most 100; and when the sanitized query has
    no clause it is the query itself, one that contains the letters of
    "limit". *)
Theorem sanitized_cap_is_bounded (query : string) :
  match declaredCap (sanitize query) with
  | Some n => (n <= 100)%N
  | None => sanitize query = query
            /\ includes (toLowerCase query) "limit" = true
  end.
Proof.
  unfold declaredCap.
  destruct (sanitize_cases query)
    as [[_ [_ Hm]] | [[Hi [Hm Hs]] | [[m [Hm [Hle Hs]]] | [m [_ [_ [_ Hm]]]]]]].
  - rewrite Hm. cbn [group1]. vm_compute. discriminate.
  - rewrite Hs, Hm. auto.
  - rewrite Hs, Hm. exact Hle.
  - rewrite Hm. cbn [group1]. vm_compute. discriminate.
Qed.

(** X2: sanitizing twice is sanitizing once. *)
Theorem sanitize_idempotent (query : string) :
  sanitize (sanitize query) = sanitize query.
Proof.
  assert (Hfix : forall s b a,
             matchLimit true s = Some (mkLimitMatch b "LIMIT 50" "50" a) ->
             sanitize s = s).
  { intros s b a Hm. destruct (sanitize_leftmost _ _ Hm) as [_ [_ [Hs _]]].
    exact Hs. }
  destruct (sanitize_cases query)
    as [[_ [_ Hm]] | [[Hi [Hm Hs]] | [[m [Hm [Hle Hs]]] | [m [_ [_ [_ Hm]]]]]]].
  - exact (Hfix _ _ _ Hm).
  - now rewrite !Hs.
  - now rewrite !Hs.
  - exact (Hfix _ _ _ Hm).
Qed.

(** X3: the sanitized query always contains the letters of "limit", so the
    first check never fires on it. *)
Theorem sanitized_mentions_limit (query : string) :
  includes (toLowerCase (sanitize query)) "limit" = true
  /\ ensureLimit (sanitize query) = sanitize query.
Proof.
  assert (H : includes (toLowerCase (sanitize query)) "limit" = true).
  { assert (Hfound : forall s m, matchLimit true s = Some m ->
                       includes (toLowerCase s) "limit" = true).
    { intros s m Hm. destruct (matchLimit_inv _ _ Hm) as [Hq [Hat _]].
      apply limitAt_includes, prefix_iff in Hat. destruct Hat as [r Hr].
      apply includes_iff. exists (toLowerCase (before m)), r.
      rewrite Hq at 1. now rewrite toLowerCase_app, Hr. }
    destruct (sanitize_cases query)
      as [[_ [_ Hm]] | [[Hi [Hm Hs]] | [[m [Hm [Hle Hs]]] | [m [_ [_ [_ Hm]]]]]]].
    - exact (Hfound _ _ Hm).
    - now rewrite Hs.
    - rewrite Hs. exact (Hfound _ _ Hm).
    - exact (Hfound _ _ Hm). }
  split; [exact H | apply ensureLimit_keeps, H].
Qed.

Lemma trimStart_spaces (s : string) :
  exists a, s = a ++ trimStart s
            /\ allChars isWhiteSpace a = true
            /\ stopsAt isWhiteSpace (trimStart s) = true.
Proof.
  induction s as [|c s [a [Hs [Ha Hstop]]]]; cbn [trimStart].
  - now exists "".
  - destruct (isWhiteSpace c) eqn:E.
    + exists (String c a). cbn [append allChars]. rewrite E, Ha.
      repeat split; [congruence | exact Hstop].
    + exists "". repeat split. cbn [stopsAt]. now rewrite E.
Qed.

Lemma trimEnd_spaces (s : string) :
  exists b, s = trimEnd s ++ b
            /\ allChars isWhiteSpace b = true
            /\ endsClean (trimEnd s) = true
            /\ (stopsAt isWhiteSpace s = true ->
                stopsAt isWhiteSpace (trimEnd s) = true).
Proof.
  induction s as [|c s [b [Hs [Hb [Hclean _]]]]]; cbn [trimEnd].
  - now exists "".
  - destruct (trimEnd s) as [|d t] eqn:E.
    + cbn [append] in Hs. subst b.
      destruct (isWhiteSpace c) eqn:Ec.
      * exists (String c s). cbn [append allChars stopsAt]. rewrite Ec, Hb.
        repeat split.
      * exists s. cbn [append endsClean stopsAt]. rewrite Ec. repeat split.
        exact Hb.
    + exists b. split; [cbn [append] in *; congruence|].
      split; [exact Hb|]. split; [exact Hclean|]. cbn [stopsAt]. auto.
Qed.

Lemma endsWith_semicolon (s : string) :
  endsWith s ";" = true -> s = sliceEnd s 1 ++ ";".
Proof.
  induction s as [|c t IH]; [discriminate|].
  cbn [endsWith]. destruct t as [|d t'].
  - cbn [String.eqb endsWith].
    destruct (Ascii.eqb_spec c ";") as [->|]; [reflexivity | discriminate].
  - replace (String c (String d t') =? ";") with false
      by (cbn [String.eqb]; now destruct (Ascii.eqb c ";")).
    cbn [orb]. intros H. specialize (IH H).
    unfold sliceEnd in *. cbn [String.length Nat.sub] in *.
    rewrite Nat.sub_0_r in *. cbn [substring append]. f_equal. exact IH.
Qed.

(** X4: for a query without the letters of "limit", the first check drops
    only the white space around the query and one final semicolon, and puts
    " LIMIT 50" behind what is left; of two final semicolons one stays. *)
Theorem append_rule_keeps_the_text (query : string) :
  includes (toLowerCase query) "limit" = false ->
  exists a b,
    allChars isWhiteSpace a = true /\ allChars isWhiteSpace b = true
    /\ query = a ++ trim query ++ b
    /\ stopsAt isWhiteSpace (trim query) = true
    /\ endsClean (trim query) = true
    /\ trim query
       = kept query ++ (if endsWith (trim query) ";" then ";" else "")
    /\ sanitize query = kept query ++ " LIMIT 50".
Proof.
  intros H.
  destruct (trimStart_spaces query) as [a [Ha [Hwa Hstop]]].
  destruct (trimEnd_spaces (trimStart query)) as [b [Hb [Hwb [Hclean Hkeep]]]].
  fold (trim query) in Hb, Hclean, Hkeep.
  exists a, b. repeat split; auto.
  - rewrite <- Hb. exact Ha.
  - unfold kept. destruct (endsWith (trim query) ";") eqn:E.
    + now apply endsWith_semicolon.
    + now rewrite append_nil_r.
  - apply (sanitize_appended query H).
Qed.

Lemma append_rule_keeps_the_text_witness :
  includes (toLowerCase "  SELECT 1;;  ") "limit" = false
  /\ sanitize "  SELECT 1;;  " = "SELECT 1; LIMIT 50".
Proof.
  assert (H : includes (toLowerCase "  SELECT 1;;  ") "limit" = false)
    by (vm_compute; reflexivity).
  split; [exact H|].
  destruct (append_rule_keeps_the_text _ H) as [a [b [_ [_ [_ [_ [_ [_ Hs]]]]]]]].
  rewrite Hs. vm_compute. reflexivity.
Defined.

(** ** The BigQuery tool, beyond the claims (logTool.ts, lines 34-113) *)

(** X5: the agent can tell a failure from a result by the first characters
    of the string: the tool's output starts with the property [error]
    exactly when the [try] block threw. *)
Theorem live_output_tells_failure (Job : Type)
  (createQueryJob : string -> completion Job)
  (getQueryResults : Job -> completion (list json)) (query : string) :
  exists s,
    LogTool.createQueryLogsTool Job createQueryJob getQueryResults query
    = Normal s
    /\ (prefix errorPrefix s = true
        <-> exists e,
              LogTool.tryBlock Job createQueryJob getQueryResults query = Throw e).
Proof.
  unfold LogTool.createQueryLogsTool.
  destruct (live_try_cases Job createQueryJob getQueryResults query)
    as [[e He] | [[job [_ [_ He]]] | [job [rows [_ [_ [Hne He]]]]]]];
    rewrite He; cbn [try_catch].
  - unfold LogTool.catchBlock.
    destruct (includes (errorMessageOf e) "Not found: Table");
      [|destruct (includes (errorMessageOf e) "permission")];
      eexists; (split; [reflexivity|]); (split; [now exists e | reflexivity]).
  - eexists. split; [reflexivity|]. split; [discriminate|].
    intros [e E]. discriminate.
  - eexists. split; [reflexivity|]. split.
    + destruct rows as [|r rows]; [congruence|]. discriminate.
    + intros [e E]. discriminate.
Qed.

(** ** The mock tool, beyond the claims (mockLogTool.ts, lines 233-293) *)

Lemma retain_In {A : Type} (signal : option A)
  (keep : A -> MockLogTool.LogEntry -> bool)
  (records : list MockLogTool.LogEntry) (e : MockLogTool.LogEntry) :
  In e (retain signal keep records)
  <-> In e records /\ (forall a, signal = Some a -> keep a e = true).
Proof.
  destruct signal as [a|]; cbn [retain].
  - rewrite filter_In. split.
    + intros [Hin Hk]. split; [exact Hin|]. intros a' E. now injection E as <-.
    + intros [Hin Hk]. auto.
  - split; [intros Hin; split; [exact Hin | discriminate] | tauto].
Qed.

Lemma matching_In (loadTime : nat -> Z) (now : Z) (query : string)
  (e : MockLogTool.LogEntry) :
  In e (matching loadTime now query)
  <-> In e (MockLogTool.mockLogs loadTime) /\ passes now query e.
Proof.
  unfold matching, passes. rewrite !retain_In. split.
  - intros [[[Hin Hs] Ho] Hr]. split; [exact Hin|]. split; [|split].
    + intros s E. apply String.eqb_eq. now apply Hs.
    + exact Ho.
    + intros minutes E. apply Z.ltb_lt. now apply Hr.
  - intros [Hin [Hs [Ho Hr]]]. split; [split; [split|]|].
    + exact Hin.
    + intros s E. apply String.eqb_eq. now apply Hs.
    + exact Ho.
    + intros minutes E. apply Z.ltb_lt. now apply Hr.
Qed.

Lemma selected_matching (loadTime : nat -> Z) (now : Z) (query : string) :
  selected loadTime now query
  = MockLogTool.slice0 (matching loadTime now query) (rowCap (toLowerCase query)).
Proof. reflexivity. Qed.

Lemma filterLogs_In (loadTime : nat -> Z) (now : Z) (query : string)
  (e : MockLogTool.LogEntry) :
  In e (MockLogTool.filterLogs loadTime now query)
  <-> In e (selected loadTime now query).
Proof.
  rewrite filterLogs_selected.
  pose proof (sort_perm MockLogTool.LogEntry MockLogTool.timestamp
                (selected loadTime now query)) as Hp.
  split; intros H.
  - eapply Permutation_in; [symmetry; exact Hp | exact H].
  - eapply Permutation_in; [exact Hp | exact H].
Qed.

(** X6: every entry the mock tool returns is one of the ten mock entries and
    passes each filter the query text asks for: the severity of the first
    severity word, a service name containing the first service word, and a
    timestamp inside the recency window. *)
Theorem mock_rows_pass_the_filters (loadTime : nat -> Z) (now : Z)
  (query : string) (e : MockLogTool.LogEntry) :
  In e (MockLogTool.filterLogs loadTime now query) ->
  In e (MockLogTool.mockLogs loadTime) /\ passes now query e.
Proof.
  intros H. apply filterLogs_In in H. rewrite selected_matching in H.
  apply slice0_incl in H. now apply matching_In.
Qed.

Lemma slice0_all {A : Type} (items : list A) (n : N) :
  (N.of_nat (List.length items) <= n)%N -> MockLogTool.slice0 items n = items.
Proof.
  revert n. induction items as [|x l IH]; intros n H; [reflexivity|].
  cbn [MockLogTool.slice0 List.length] in *.
  destruct (N.eqb_spec n 0); [lia|]. f_equal. apply IH. lia.
Qed.

Lemma retain_length {A : Type} (signal : option A)
  (keep : A -> MockLogTool.LogEntry -> bool)
  (records : list MockLogTool.LogEntry) :
  List.length (retain signal keep records) <= List.length records.
Proof.
  destruct signal; cbn [retain]; [apply filter_length_le | apply Nat.le_refl].
Qed.

Lemma matching_length (loadTime : nat -> Z) (now : Z) (query : string) :
  List.length (matching loadTime now query) <= 10.
Proof.
  unfold matching.
  eapply Nat.le_trans; [apply retain_length|].
  eapply Nat.le_trans; [apply retain_length|].
  eapply Nat.le_trans; [apply retain_length|]. apply Nat.le_refl.
Qed.

(** X7: when the row cap is at least ten, as the default of 50 is, the mock
    tool returns exactly the mock entries that pass the filters of the
    query: none is lost to the truncation. *)
Theorem mock_rows_are_all_matches (loadTime : nat -> Z) (now : Z)
  (query : string) (e : MockLogTool.LogEntry) :
  (10 <= rowCap (toLowerCase query))%N ->
  (In e (MockLogTool.filterLogs loadTime now query)
   <-> In e (MockLogTool.mockLogs loadTime) /\ passes now query e).
Proof.
  intros Hcap. rewrite filterLogs_In, selected_matching, slice0_all.
  - apply matching_In.
  - pose proof (matching_length loadTime now query). lia.
Qed.

(** X8: a limit of zero gives the empty array, whatever else the query
    says. *)
Theorem mock_limit_zero (toISOString : Z -> string) (loadTime : nat -> Z)
  (now : Z) (query : string) :
  rowCap (toLowerCase query) = 0%N ->
  MockLogTool.createQueryMockLogsTool toISOString loadTime now query
  = Normal "[]".
Proof.
  intros H. unfold MockLogTool.createQueryMockLogsTool, MockLogTool.tryBlock.
  rewrite filterLogs_selected, selected_matching, H.
  destruct (matching loadTime now query); reflexivity.
Qed.

Section Descending.

Variable A : Type.
Variable time : A -> Z.

Lemma filter_descending (f : A -> bool) (l : list A) :
  StronglySorted (fun a b => (time b < time a)%Z) l ->
  StronglySorted (fun a b => (time b < time a)%Z) (filter f l).
Proof.
  induction 1 as [|x l Hl IH Hx]; cbn [filter]; [constructor|].
  destruct (f x); [|exact IH].
  constructor; [exact IH|].
  apply Forall_forall. intros y Hy. apply filter_In in Hy.
  rewrite Forall_forall in Hx. now apply Hx.
Qed.

Lemma slice0_descending (l : list A) (n : N) :
  StronglySorted (fun a b => (time b < time a)%Z) l ->
  StronglySorted (fun a b => (time b < time a)%Z) (MockLogTool.slice0 l n).
Proof.
  intros H. revert n. induction H as [|x l Hl IH Hx]; intros n;
    cbn [MockLogTool.slice0]; [constructor|].
  destruct (n =? 0)%N; constructor; [apply IH|].
  apply Forall_forall. intros y Hy. apply slice0_incl in Hy.
  rewrite Forall_forall in Hx. now apply Hx.
Qed.

(** The sort leaves a list alone that is in descending order already. *)
Lemma sort_descending (l : list A) :
  StronglySorted (fun a b => (time b < time a)%Z) l ->
  MockLogTool.sort (fun a b => (time b - time a)%Z) l = l.
Proof.
  induction 1 as [|x l Hl IH Hx]; cbn [MockLogTool.sort]; [reflexivity|].
  rewrite IH. destruct l as [|y l]; [reflexivity|].
  cbn [MockLogTool.insertBy]. inversion Hx; subst.
  destruct (Z.leb_spec (time y - time x) 0); [reflexivity | lia].
Qed.

Lemma filter_none (f : A -> bool) (l : list A) :
  (forall y, In y l -> f y = false) -> filter f l = [].
Proof.
  induction l as [|x l IH]; intros H; [reflexivity|]. cbn [filter].
  rewrite (H x) by now left. apply IH. intros y Hy. apply H. now right.
Qed.

(** In a descending list the entries above a higher threshold come first
    among the entries above a lower one. *)
Lemma filter_threshold_prefix (low high : Z) (l : list A) :
  (low <= high)%Z ->
  StronglySorted (fun a b => (time b < time a)%Z) l ->
  exists rest,
    filter (fun a => (low <? time a)%Z) l
    = (filter (fun a => (high <? time a)%Z) l ++ rest)%list.
Proof.
  intros Hle. induction 1 as [|x l Hl [rest IH] Hx]; [now exists []|].
  cbn [filter]. destruct (Z.ltb_spec high (time x)) as [Hh|Hh].
  - destruct (Z.ltb_spec low (time x)); [|lia].
    exists rest. cbn [app]. now rewrite IH.
  - replace (filter (fun a => (high <? time a)%Z) l) with (@nil A).
    + now eexists.
    + symmetry. apply filter_none.
      rewrite Forall_forall in Hx. intros y Hy.
      specialize (Hx y Hy). cbn beta in Hx.
      destruct (Z.ltb_spec high (time y)); [lia | reflexivity].
Qed.

Lemma slice0_prefix (p r : list A) (n : N) :
  exists rest,
    MockLogTool.slice0 (p ++ r)%list n
    = (MockLogTool.slice0 p n ++ rest)%list.
Proof.
  revert n. induction p as [|x p IH]; intros n; [now eexists|].
  cbn [app MockLogTool.slice0]. destruct (n =? 0)%N; [now exists []|].
  destruct (IH (N.pred n)) as [rest ->]. now exists rest.
Qed.

End Descending.

Lemma mockLogs_descending (loadTime : nat -> Z) :
  steadyClock loadTime ->
  StronglySorted
    (fun a b => (MockLogTool.timestamp b < MockLogTool.timestamp a)%Z)
    (MockLogTool.mockLogs loadTime).
Proof.
  intros H.
  pose proof (H 0) as H0. pose proof (H 1) as H1. pose proof (H 2) as H2.
  pose proof (H 3) as H3. pose proof (H 4) as H4. pose proof (H 5) as H5.
  pose proof (H 6) as H6. pose proof (H 7) as H7. pose proof (H 8) as H8.
  unfold MockLogTool.mockLogs.
  repeat constructor; cbn [MockLogTool.timestamp]; lia.
Qed.

Lemma retain_descending {B : Type} (signal : option B)
  (keep : B -> MockLogTool.LogEntry -> bool)
  (records : list MockLogTool.LogEntry) :
  StronglySorted
    (fun a b => (MockLogTool.timestamp b < MockLogTool.timestamp a)%Z) records ->
  StronglySorted
    (fun a b => (MockLogTool.timestamp b < MockLogTool.timestamp a)%Z)
    (retain signal keep records).
Proof.
  destruct signal; cbn [retain]; [apply filter_descending | auto].
Qed.

Lemma matching_descending (loadTime : nat -> Z) (now : Z) (query : string) :
  steadyClock loadTime ->
  StronglySorted
    (fun a b => (MockLogTool.timestamp b < MockLogTool.timestamp a)%Z)
    (matching loadTime now query).
Proof.
  intros H. unfold matching.
  now apply retain_descending, retain_descending, retain_descending,
    mockLogs_descending.
Qed.

(** X9: when the clock is steady while the mock module loads, the mock
    entries are listed newest first, so the truncation that precedes the
    sort keeps the most recent matches: what the tool returns is the sorted
    list of all matches cut to the row cap, and the sort changes nothing. *)
Theorem mock_limit_keeps_newest (loadTime : nat -> Z) (now : Z)
  (query : string) :
  steadyClock loadTime ->
  MockLogTool.filterLogs loadTime now query
  = MockLogTool.slice0
      (MockLogTool.sort
         (fun a b => (MockLogTool.timestamp b - MockLogTool.timestamp a)%Z)
         (matching loadTime now query))
      (rowCap (toLowerCase query))
  /\ MockLogTool.filterLogs loadTime now query = selected loadTime now query.
Proof.
  intros H. pose proof (matching_descending loadTime now query H) as Hd.
  rewrite filterLogs_selected, selected_matching.
  rewrite (sort_descending _ MockLogTool.timestamp (matching loadTime now query) Hd).
  rewrite (sort_descending _ MockLogTool.timestamp _
             (slice0_descending _ MockLogTool.timestamp _ _ Hd)).
  split; reflexivity.
Qed.

(** X10: when the clock is steady while the mock module loads, entries only
    age out: of two invocations with the same query, the later one returns
    an initial segment of what the earlier one returned. *)
Theorem mock_rows_age_out (loadTime : nat -> Z) (now1 now2 : Z)
  (query : string) :
  steadyClock loadTime ->
  (now1 <= now2)%Z ->
  exists rest,
    MockLogTool.filterLogs loadTime now1 query
    = (MockLogTool.filterLogs loadTime now2 query ++ rest)%list.
Proof.
  intros H Hle.
  destruct (mock_limit_keeps_newest loadTime now1 query H) as [_ ->].
  destruct (mock_limit_keeps_newest loadTime now2 query H) as [_ ->].
  rewrite !selected_matching. unfold matching.
  set (base := retain (originSignal (toLowerCase query)) _ _).
  assert (Hbase : StronglySorted
            (fun a b => (MockLogTool.timestamp b < MockLogTool.timestamp a)%Z)
            base).
  { subst base. now apply retain_descending, retain_descending,
      mockLogs_descending. }
  destruct (recencySignal (toLowerCase query)) as [minutes|]; cbn [retain].
  - destruct (filter_threshold_prefix _ MockLogTool.timestamp
                (now1 - minutes * 60000) (now2 - minutes * 60000) base
                ltac:(lia) Hbase) as [r ->].
    apply slice0_prefix.
  - exists []. now rewrite List.app_nil_r.
Qed.

(** ** The flow and the endpoint (index.ts, lines 116-194) *)

(** X11: the endpoint always answers, and its status depends on the request
    body alone: 500 when the body is undefined or null, 200 with the property
    [result] when [data] is a non-empty string, and 400 with the fixed error
    for every other body: [data] missing, empty, or not a string. *)
Theorem endpoint_status (tool : Z -> string -> completion string)
  (generate : (Z -> string -> completion string) -> string -> completion string)
  (typeErrorMessage : string) (reqBody : option json) :
  exists response,
    Server.postDevAssistant tool generate typeErrorMessage reqBody
    = Normal response
    /\ match reqBody with
       | None | Some JNull =>
           response
           = Server.mkResponse 500
               (JObject [("error", JString "Internal server error");
                         ("details", JString typeErrorMessage)])
       | Some j =>
           match field "data" j with
           | Some (JString question) =>
               if question =? "" then
                 response = Server.mkResponse 400 Server.invalidRequest
               else
                 exists result,
                   response
                   = Server.mkResponse 200 (JObject [("result", JString result)])
           | _ => response = Server.mkResponse 400 Server.invalidRequest
           end
       end.
Proof.
  unfold Server.postDevAssistant, Server.destructure.
  destruct reqBody as [j|]; [|eexists; split; reflexivity].
  destruct j as [| b | z | s | items | fields];
    try (eexists; split; reflexivity).
  cbn [bind try_catch field].
  destruct (assoc "data" fields) as [[| b | z | question | items | fs]|];
    cbn [Server.truthy Server.isString negb orb];
    try (eexists; split; reflexivity).
  - destruct b; eexists; split; reflexivity.
  - destruct (z =? 0)%Z; eexists; split; reflexivity.
  - destruct (question =? ""); cbn [negb orb];
      [eexists; split; reflexivity|].
    unfold Server.devAssistantFlow.
    destruct (generate tool question); cbn [bind try_catch];
      eexists; (split; [reflexivity | eexists; reflexivity]).
Qed.

(** X12: a failing model call does not fail the request: for a non-empty
    question the endpoint answers 200, with the model's text when the call
    resolves and with the apology that quotes the error's message when it
    rejects. *)
Theorem endpoint_hides_model_failure
  (tool : Z -> string -> completion string)
  (generate : (Z -> string -> completion string) -> string -> completion string)
  (typeErrorMessage : string) (j : json) (question : string) :
  field "data" j = Some (JString question) ->
  question <> "" ->
  Server.postDevAssistant tool generate typeErrorMessage (Some j)
  = Normal (Server.mkResponse 200
      (JObject
         [("result",
           JString match generate tool question with
                   | Normal text => text
                   | Throw error => Server.apology (errorMessageOf error)
                   end)])).
Proof.
  intros Hd Hq. apply String.eqb_neq in Hq.
  unfold Server.postDevAssistant, Server.destructure.
  destruct j; try discriminate.
  cbn [bind try_catch]. rewrite Hd.
  cbn [Server.truthy Server.isString negb orb]. rewrite Hq. cbn [negb orb].
  unfold Server.devAssistantFlow.
  destruct (generate tool question); reflexivity.
Qed.

(** ** The configuration (config.ts) *)

(** X13: the configuration is valid exactly when USE_MOCK_DATA is the string
    "true", or GCP_PROJECT_ID is set to a non-empty string; an empty
    GCP_PROJECT_ID counts as a missing one. *)
Theorem config_validity (env : Config.Env) :
  Config.isValid (Config.config env) = true
  <-> env "USE_MOCK_DATA" = Some "true"
      \/ exists p, env "GCP_PROJECT_ID" = Some p /\ p <> "".
Proof.
  unfold Config.isValid, Config.config.
  cbn [Config.useMockData Config.gcpProjectId].
  destruct (env "USE_MOCK_DATA") as [v|] eqn:Ev.
  - destruct (String.eqb_spec v "true") as [->|Hv]; [tauto|].
    destruct (env "GCP_PROJECT_ID") as [[|c p]|] eqn:Ep; cbn; split;
      try discriminate; try (intros [H | [q [H Hq]]]; congruence).
    intros _. right. exists (String c p). split; [reflexivity | discriminate].
  - destruct (env "GCP_PROJECT_ID") as [[|c p]|] eqn:Ep; cbn; split;
      try discriminate; try (intros [H | [q [H Hq]]]; congruence).
    intros _. right. exists (String c p). split; [reflexivity | discriminate].
Qed.

Lemma digit_is_plain (c : ascii) :
  isDigit c = true ->
  isWhiteSpace c = false /\ (code c =? 45)%N = false /\ (code c =? 43)%N = false.
Proof.
  unfold isDigit, isWhiteSpace. intros H.
  apply andb_true_iff in H. destruct H as [H1 H2].
  apply N.leb_le in H1. apply N.leb_le in H2.
  repeat split.
  - destruct (N.leb_spec 9 (code c)); destruct (N.leb_spec (code c) 13);
      destruct (N.eqb_spec (code c) 32); destruct (N.eqb_spec (code c) 160);
      cbn; try reflexivity; lia.
  - apply N.eqb_neq. lia.
  - apply N.eqb_neq. lia.
Qed.

(** X14: the port is 3400 when PORT is missing or empty, the value of PORT
    when PORT is a run of at most fifteen decimal digits, and NaN, not 3400,
    when PORT is set and starts with anything but white space, a sign or a
    digit. *)
Theorem config_port (env : Config.Env) :
  (env "PORT" = None \/ env "PORT" = Some "" ->
   Config.port (Config.config env) = Some 3400%Z)
  /\ (forall digits,
        env "PORT" = Some digits -> digits <> "" ->
        (String.length digits <= 15)%nat ->
        allChars isDigit digits = true ->
        Config.port (Config.config env) = Some (Z.of_N (parseInt digits)))
  /\ (forall c rest,
        env "PORT" = Some (String c rest) ->
        isWhiteSpace c = false -> isDigit c = false ->
        (code c =? 45)%N = false -> (code c =? 43)%N = false ->
        Config.port (Config.config env) = None).
Proof.
  unfold Config.config. cbn [Config.port]. repeat split.
  - intros [-> | ->]; vm_compute; reflexivity.
  - intros digits -> Hne _ Hall. destruct digits as [|c t]; [congruence|].
    cbn [Config.orElse]. unfold Config.parseIntPrefix.
    pose proof Hall as Hc. cbn [allChars] in Hc.
    apply andb_true_iff in Hc. destruct Hc as [Hc _].
    destruct (digit_is_plain c Hc) as [Hw [H45 H43]].
    cbn [trimStart]. rewrite Hw, H45, H43.
    rewrite (span_digits _ Hall). reflexivity.
  - intros c rest -> Hw Hd H45 H43.
    cbn [Config.orElse]. unfold Config.parseIntPrefix.
    cbn [trimStart]. rewrite Hw, H45, H43. cbn [span]. rewrite Hd.
    reflexivity.
Qed.

(** ** The chat component (DevAssistantChat.tsx, lines 43-99) *)

Lemma trim_empty (s : string) : trim s <> "" -> s <> "".
Proof. intros H ->. now apply H. Qed.

(** What one call of [sendMessage] does to the state. *)
Lemma sendMessage_effect (API_URL : string) (fetch : json -> Chat.Fetched)
  (typeErrorMessage : string) (messageText : option string)
  (sentTime replyTime : Z) (s : Chat.State) :
  let text := Config.orElse messageText (Chat.input s) in
  if trim text =? "" then
    Chat.sendMessage API_URL fetch typeErrorMessage messageText
      sentTime replyTime s = s
  else
    exists reply err,
      Chat.sendMessage API_URL fetch typeErrorMessage messageText
        sentTime replyTime s
      = Chat.mkState ""
          (Chat.messages s
           ++ [Chat.mkMessage Chat.user (JString text) sentTime; reply])%list
          false err
      /\ Chat.role reply = Chat.assistant.
Proof.
  intros text. unfold Chat.sendMessage. fold text.
  destruct (trim text =? ""); [reflexivity|].
  destruct (Chat.tryBlock fetch typeErrorMessage text replyTime) as [m|e] eqn:E.
  - exists m, None. rewrite <- List.app_assoc. split; [reflexivity|].
    unfold Chat.tryBlock in E.
    destruct (fetch _) as [|ok st stt parsed]; [discriminate|].
    destruct (negb ok); [discriminate|].
    destruct parsed as [data|]; [|discriminate]. cbn [bind] in E.
    destruct data; try discriminate; now injection E as <-.
  - eexists _, _. rewrite <- List.app_assoc. split; reflexivity.
Qed.

Lemma Alternates_snoc2 :
  forall (ms : list Chat.Message) (u a : Chat.Message),
    Chat.Alternates ms ->
    Chat.role u = Chat.user -> Chat.role a = Chat.assistant ->
    Chat.Alternates (ms ++ [u; a]).
Proof.
  fix IH 1. intros [|m [|m' rest]] u a H Hu Ha.
  - contradiction.
  - cbn in *. auto.
  - destruct H as [Hm [Hm' H]].
    change (Chat.Alternates (m :: m' :: (rest ++ [u; a]))).
    cbn [Chat.Alternates]. repeat split; auto.
Qed.

(** X15: over any sequence of sends the transcript only grows, each send
    adding nothing (a blank input) or a user message followed by one
    assistant message; the roles keep alternating, the loading flag is down
    after every send. *)
Theorem transcript_invariant (API_URL typeErrorMessage : string)
  (turns : list Chat.Turn) (s : Chat.State) :
  Chat.Alternates (Chat.messages s) ->
  Chat.isLoading s = false ->
  let s' := Chat.run API_URL typeErrorMessage turns s in
  Chat.Alternates (Chat.messages s')
  /\ Chat.isLoading s' = false
  /\ (exists added,
        Chat.messages s' = (Chat.messages s ++ added)%list
        /\ List.length added
           = 2 * List.length
                   (filter (fun t => negb (trim (Chat.typed t) =? "")) turns)).
Proof.
  revert s. induction turns as [|t turns IH]; intros s Halt Hload.
  - cbn. repeat split; auto. exists []. now rewrite List.app_nil_r.
  - cbn [Chat.run filter].
    pose proof (sendMessage_effect API_URL (fun _ => Chat.fetched t)
                  typeErrorMessage None (Chat.sentAt t) (Chat.repliedAt t)
                  (Chat.mkState (Chat.typed t) (Chat.messages s)
                     (Chat.isLoading s) (Chat.error s))) as He.
    fold (Chat.turn API_URL typeErrorMessage t s) in He.
    cbn [Chat.input Chat.messages] in He.
    assert (Hor : Config.orElse None (Chat.typed t) = Chat.typed t)
      by reflexivity.
    rewrite Hor in He.
    destruct (trim (Chat.typed t) =? "") eqn:Eb; cbn [negb].
    + specialize (IH (Chat.turn API_URL typeErrorMessage t s)).
      rewrite He in IH. cbn [Chat.messages Chat.isLoading] in IH.
      rewrite He. apply IH; assumption.
    + destruct He as [reply [err [He Hrole]]].
      specialize (IH (Chat.turn API_URL typeErrorMessage t s)).
      rewrite He in IH. cbn [Chat.messages Chat.isLoading] in IH.
      rewrite He.
      destruct IH as [Ha [Hl [added [Hm Hlen]]]].
      * now apply Alternates_snoc2.
      * reflexivity.
      * repeat split; auto.
        exists ([Chat.mkMessage Chat.user (JString (Chat.typed t)) (Chat.sentAt t);
                 reply] ++ added)%list.
        split; [now rewrite Hm, <- List.app_assoc|].
        cbn [List.length app]. lia.
Qed.

(** X16: the component and the endpoint together.  A text that is not blank
    always passes the endpoint's check of [data]; the reply shown is the
    model's text, the apology of the flow when the model call failed, or "No
    response received" when the model's text is empty; and the error state
    stays clear, so a failed model call looks like an answer. *)
Theorem chat_over_endpoint (API_URL frontTypeError backTypeError : string)
  (statusText : nat -> string)
  (tool : Z -> string -> completion string)
  (generate : (Z -> string -> completion string) -> string -> completion string)
  (messageText : option string) (sentTime replyTime : Z) (s : Chat.State) :
  let text := Config.orElse messageText (Chat.input s) in
  let answer := match generate tool text with
                | Normal t => t
                | Throw error => Server.apology (errorMessageOf error)
                end in
  trim text <> "" ->
  Chat.requestOf messageText s = Some (JObject [("data", JString text)])
  /\ Chat.sendMessage API_URL
       (Chat.overHttp statusText
          (Server.postDevAssistant tool generate backTypeError))
       frontTypeError messageText sentTime replyTime s
     = Chat.mkState ""
         (Chat.messages s
          ++ [Chat.mkMessage Chat.user (JString text) sentTime;
              Chat.mkMessage Chat.assistant
                (JString (if answer =? "" then "No response received"
                          else answer))
                replyTime])%list
         false None.
Proof.
  intros text answer Hblank.
  pose proof (trim_empty _ Hblank) as Htext.
  apply String.eqb_neq in Hblank.
  unfold Chat.requestOf, Chat.sendMessage. fold text. rewrite Hblank.
  split; [reflexivity|].
  unfold Chat.tryBlock, Chat.overHttp.
  rewrite (endpoint_hides_model_failure tool generate backTypeError
             (JObject [("data", JString text)]) text eq_refl Htext).
  fold answer. cbn [Server.status Server.body Nat.leb andb negb bind].
  cbn [field assoc String.eqb Ascii.eqb Bool.eqb].
  unfold Chat.orValue. cbn [Server.truthy].
  rewrite <- List.app_assoc. cbn [app].
  destruct (answer =? ""); reflexivity.
Qed.

(** ** Runs of the further properties *)

Import Runs.

Lemma steadyClock_loadedAtZero : steadyClock loadedAtZero.
Proof. intros k. unfold loadedAtZero. lia. Qed.

Lemma mock_rows_pass_the_filters_witness :
  In paymentTimeout (MockLogTool.filterLogs loadedAtZero 0 "payment errors")
  /\ passes 0 "payment errors" paymentTimeout.
Proof.
  assert (H : In paymentTimeout
                (MockLogTool.filterLogs loadedAtZero 0 "payment errors"))
    by (vm_compute; now left).
  split; [exact H|].
  apply (mock_rows_pass_the_filters loadedAtZero 0 "payment errors" _ H).
Defined.

Lemma mock_rows_are_all_matches_witness :
  (10 <= rowCap (toLowerCase "payment errors"))%N
  /\ (In paymentTimeout (MockLogTool.mockLogs loadedAtZero)
      /\ passes 0 "payment errors" paymentTimeout ->
      In paymentTimeout (MockLogTool.filterLogs loadedAtZero 0 "payment errors")).
Proof.
  assert (H : (10 <= rowCap (toLowerCase "payment errors"))%N)
    by (vm_compute; discriminate).
  split; [exact H|].
  apply (mock_rows_are_all_matches loadedAtZero 0 "payment errors" _ H).
Defined.

Lemma mock_limit_zero_witness :
  rowCap (toLowerCase "SELECT * FROM logs LIMIT 0") = 0%N
  /\ MockLogTool.createQueryMockLogsTool millis loadedAtZero 0
       "SELECT * FROM logs LIMIT 0" = Normal "[]".
Proof.
  assert (H : rowCap (toLowerCase "SELECT * FROM logs LIMIT 0") = 0%N)
    by (vm_compute; reflexivity).
  split; [exact H|].
  apply (mock_limit_zero millis loadedAtZero 0 _ H).
Defined.

Lemma mock_limit_keeps_newest_witness :
  steadyClock loadedAtZero
  /\ MockLogTool.filterLogs loadedAtZero 0 "errors limit 3"
     = selected loadedAtZero 0 "errors limit 3".
Proof.
  split; [exact steadyClock_loadedAtZero|].
  apply (mock_limit_keeps_newest loadedAtZero 0 "errors limit 3"
           steadyClock_loadedAtZero).
Defined.

Lemma mock_rows_age_out_witness :
  steadyClock loadedAtZero /\ (0 <= 300000)%Z
  /\ exists rest,
       MockLogTool.filterLogs loadedAtZero 0 "last 30 minutes"
       = (MockLogTool.filterLogs loadedAtZero 300000 "last 30 minutes"
          ++ rest)%list.
Proof.
  split; [exact steadyClock_loadedAtZero|]. split; [lia|].
  apply (mock_rows_age_out loadedAtZero 0 300000 "last 30 minutes"
           steadyClock_loadedAtZero).
  lia.
Defined.

Lemma endpoint_hides_model_failure_witness :
  field "data" (JObject [("data", JString "Why is checkout slow?")])
  = Some (JString "Why is checkout slow?")
  /\ "Why is checkout slow?" <> ""
  /\ Server.postDevAssistant noTool quotaExceeded "TypeError"
       (Some (JObject [("data", JString "Why is checkout slow?")]))
     = Normal (Server.mkResponse 200
         (JObject [("result", JString (Server.apology "429 quota exceeded"))])).
Proof.
  split; [reflexivity|]. split; [discriminate|].
  apply (endpoint_hides_model_failure noTool quotaExceeded "TypeError"
           (JObject [("data", JString "Why is checkout slow?")])
           "Why is checkout slow?" eq_refl).
  discriminate.
Defined.

Lemma config_port_witness :
  Config.port (Config.config (portOnly "")) = Some 3400%Z
  /\ Config.port (Config.config (portOnly "8080")) = Some 8080%Z
  /\ Config.port (Config.config (portOnly "abc")) = None.
Proof.
  destruct (config_port (portOnly "")) as [H1 _].
  destruct (config_port (portOnly "8080")) as [_ [H2 _]].
  destruct (config_port (portOnly "abc")) as [_ [_ H3]].
  split; [apply H1; right; reflexivity|]. split.
  - apply (H2 "8080"); [reflexivity | discriminate | cbn; lia | reflexivity].
  - apply (H3 "a"%char "bc"); reflexivity.
Defined.

Lemma transcript_invariant_witness :
  Chat.Alternates (Chat.messages freshChat)
  /\ Chat.isLoading freshChat = false
  /\ Chat.Alternates
       (Chat.messages (Chat.run "http://localhost:3400" "TypeError"
                         threeTurns freshChat))
  /\ List.length
       (Chat.messages (Chat.run "http://localhost:3400" "TypeError"
                         threeTurns freshChat)) = 5.
Proof.
  assert (Ha : Chat.Alternates (Chat.messages freshChat)) by reflexivity.
  split; [exact Ha|]. split; [reflexivity|].
  destruct (transcript_invariant "http://localhost:3400" "TypeError"
              threeTurns freshChat Ha eq_refl) as [H1 [_ [added [Hm Hlen]]]].
  split; [exact H1|].
  rewrite Hm, List.length_app, Hlen. vm_compute. reflexivity.
Defined.

Lemma chat_over_endpoint_witness :
  trim (Config.orElse None "Why is checkout slow?") <> ""
  /\ Chat.error
       (Chat.sendMessage "http://localhost:3400"
          (Chat.overHttp (fun _ => "OK")
             (Server.postDevAssistant noTool quotaExceeded "TypeError"))
          "TypeError" None 1 2
          (Chat.mkState "Why is checkout slow?" (Chat.messages freshChat)
             false None))
     = None.
Proof.
  assert (H : trim (Config.orElse None "Why is checkout slow?") <> "")
    by (vm_compute; discriminate).
  split; [exact H|].
  destruct (chat_over_endpoint "http://localhost:3400" "TypeError" "TypeError"
              (fun _ => "OK") noTool quotaExceeded None 1 2
              (Chat.mkState "Why is checkout slow?" (Chat.messages freshChat)
                 false None) H) as [_ Hs].
  rewrite Hs. reflexivity.
Defined.
